(** * Special-relativity simulation: the kinematics engine, the velocity
      mapper and the dual-clock animator of [src/App.jsx]

    The component [SpecialRelativitySimulation] is a React function
    component.  Its state is six [useState] cells and two [useRef] cells;
    its behaviour is four event handlers, two effects and the frame
    callback [animate].  The embedding below keeps that shape:

    - the cells are the fields of the record [AppState];
    - every handler, effect and callback is a function on [AppState];
    - a commit ([commit]) re-runs the effects whose dependency list changed,
      as React does after a render;
    - the host's [requestAnimationFrame] / [cancelAnimationFrame] are
      modelled by a queue of pending handles kept in the state.

    Numbers.  A JavaScript [Number] is an IEEE-754 double.  The embedding
    reads the arithmetic of the source over the real numbers [R]: [+], [-],
    [*], [/], [Math.sqrt] and [Math.pow(_, 4)] are the exact operations.
    Rounding, infinities and NaN are outside the model; every theorem below
    is a statement about the exact values the source's formulas denote.
    The source rounds the stationary seconds after every frame, so what is
    stated about runs of several frames is their order, or concerns deltas
    that are zero, single deltas, and sums of whole seconds. *)

From Stdlib Require Import Reals Lra List Bool Arith Sorted.
Import ListNotations.

Open Scope R_scope.

(** ** Kinematics (App.jsx, lines 16-19) *)

Module Kinematics.

(** [const gamma = 1 / Math.sqrt(1 - velocity * velocity);] *)
Definition gamma (velocity : R) : R :=
  1 / sqrt (1 - velocity * velocity).

(** [const lengthContraction = 1 / gamma;] *)
Definition lengthContraction (velocity : R) : R :=
  1 / gamma velocity.

(** [const timeDilation = gamma;] *)
Definition timeDilation (velocity : R) : R :=
  gamma velocity.

End Kinematics.

(** ** Velocity mapping (the body of the first [useEffect], lines 22-43) *)

Module VelocityMapper.

(** The value handed to [setVelocity], as a function of the two
    dependencies [sliderValue] and [useLogarithmic].  [Math.pow(x, exponent)]
    with the constant [exponent = 4] is the fourth power. *)
Definition newVelocity (useLogarithmic : bool) (sliderValue : R) : R :=
  if useLogarithmic then
    let minVelocity := 0.9 in
    let maxVelocity := 0.9999 in
    let exponent := 4%nat in
    let mappedValue := 1 - (1 - sliderValue) ^ exponent in
    minVelocity + (maxVelocity - minVelocity) * mappedValue
  else
    let minVelocity := 0.1 in
    let maxVelocity := 0.9 in
    minVelocity + (maxVelocity - minVelocity) * sliderValue.

End VelocityMapper.

(** ** Component state *)

(** ['length'] or ['time'], the two values [viewMode] takes. *)
Inductive ViewMode : Set := LengthView | TimeView.

(** The six [useState] cells (lines 5-10), the two [useRef] cells
    (lines 13-14) and the host's animation-frame registry.

    [animationRef] starts at [null] ([None]) and later holds the handle
    returned by [requestAnimationFrame].  [lastTimeRef] is a number that
    starts at [0]; the source tests it with [!lastTimeRef.current], so [0]
    doubles as "no baseline recorded".

    [elapsedTime] counts seconds; [lastTimeRef] and the timestamps of the
    frames are milliseconds, as [requestAnimationFrame] reports them.

    [frameQueue] lists the handles whose callback is still pending, oldest
    first; the only callback ever registered is [animate].  [nextHandle] is
    the handle the next request returns (handles are positive and never
    reused). *)
Record AppState : Type := mkApp {
  velocity       : R;
  sliderValue    : R;
  viewMode       : ViewMode;
  isRunning      : bool;
  useLogarithmic : bool;
  elapsedTime    : R;
  animationRef   : option nat;
  lastTimeRef    : R;
  frameQueue     : list nat;
  nextHandle     : nat
}.

Definition setVelocity (x : R) (s : AppState) : AppState :=
  mkApp x (sliderValue s) (viewMode s) (isRunning s) (useLogarithmic s)
        (elapsedTime s) (animationRef s) (lastTimeRef s) (frameQueue s)
        (nextHandle s).

Definition setSliderValue (x : R) (s : AppState) : AppState :=
  mkApp (velocity s) x (viewMode s) (isRunning s) (useLogarithmic s)
        (elapsedTime s) (animationRef s) (lastTimeRef s) (frameQueue s)
        (nextHandle s).

Definition setViewMode (m : ViewMode) (s : AppState) : AppState :=
  mkApp (velocity s) (sliderValue s) m (isRunning s) (useLogarithmic s)
        (elapsedTime s) (animationRef s) (lastTimeRef s) (frameQueue s)
        (nextHandle s).

Definition setIsRunning (b : bool) (s : AppState) : AppState :=
  mkApp (velocity s) (sliderValue s) (viewMode s) b (useLogarithmic s)
        (elapsedTime s) (animationRef s) (lastTimeRef s) (frameQueue s)
        (nextHandle s).

Definition setUseLogarithmic (b : bool) (s : AppState) : AppState :=
  mkApp (velocity s) (sliderValue s) (viewMode s) (isRunning s) b
        (elapsedTime s) (animationRef s) (lastTimeRef s) (frameQueue s)
        (nextHandle s).

Definition setElapsedTime (x : R) (s : AppState) : AppState :=
  mkApp (velocity s) (sliderValue s) (viewMode s) (isRunning s)
        (useLogarithmic s) x (animationRef s) (lastTimeRef s) (frameQueue s)
        (nextHandle s).

(** [animationRef.current = h] *)
Definition setAnimationRef (h : option nat) (s : AppState) : AppState :=
  mkApp (velocity s) (sliderValue s) (viewMode s) (isRunning s)
        (useLogarithmic s) (elapsedTime s) h (lastTimeRef s) (frameQueue s)
        (nextHandle s).

(** [lastTimeRef.current = x] *)
Definition setLastTimeRef (x : R) (s : AppState) : AppState :=
  mkApp (velocity s) (sliderValue s) (viewMode s) (isRunning s)
        (useLogarithmic s) (elapsedTime s) (animationRef s) x (frameQueue s)
        (nextHandle s).

(** The host's list of pending requests. *)
Definition setFrameQueue (q : list nat) (s : AppState) : AppState :=
  mkApp (velocity s) (sliderValue s) (viewMode s) (isRunning s)
        (useLogarithmic s) (elapsedTime s) (animationRef s) (lastTimeRef s) q
        (nextHandle s).

(** The values passed to [useState] and [useRef], before any effect ran. *)
Definition initialState : AppState :=
  mkApp 0.5 0.5 LengthView false false 0 None 0 [] 1.

(** ** The host's frame scheduler *)

(** [requestAnimationFrame(animate)]: a fresh handle, queued last. *)
Definition requestAnimationFrame (s : AppState) : nat * AppState :=
  (nextHandle s,
   mkApp (velocity s) (sliderValue s) (viewMode s) (isRunning s)
         (useLogarithmic s) (elapsedTime s) (animationRef s) (lastTimeRef s)
         (frameQueue s ++ [nextHandle s]) (S (nextHandle s))).

(** [cancelAnimationFrame(h)]: the request [h] is dropped if it is pending;
    [null] and unknown handles are ignored. *)
Definition cancelAnimationFrame (h : option nat) (s : AppState) : AppState :=
  match h with
  | None => s
  | Some n =>
      mkApp (velocity s) (sliderValue s) (viewMode s) (isRunning s)
            (useLogarithmic s) (elapsedTime s) (animationRef s)
            (lastTimeRef s) (remove Nat.eq_dec n (frameQueue s))
            (nextHandle s)
  end.

(** JavaScript truthiness of a handle: [null] and [0] are falsy. *)
Definition truthyHandle (h : option nat) : bool :=
  match h with
  | Some (S _) => true
  | _ => false
  end.

(** ** Derived values of a render (lines 102-106) *)

(** The number [elapsedTime / timeDilation] of line 106.  The source goes on
    to print it with [toFixed(2)]; the printing is left to the view. *)
Definition movingTime (s : AppState) : R :=
  elapsedTime s / Kinematics.timeDilation (velocity s).

(** The number behind [stationaryTime] (line 105). *)
Definition stationaryTime (s : AppState) : R := elapsedTime s.

(** ** Effects *)

(** First effect (lines 22-43), dependencies [sliderValue, useLogarithmic]. *)
Definition velocityEffect (s : AppState) : AppState :=
  setVelocity (VelocityMapper.newVelocity (useLogarithmic s) (sliderValue s)) s.

(** The frame callback (lines 64-73).  [!lastTimeRef.current] holds exactly
    when the cell is [0]. *)
Definition animate (timestamp : R) (s : AppState) : AppState :=
  let s1 := if Req_dec_T (lastTimeRef s) 0
            then setLastTimeRef timestamp s else s in
  let deltaTime := timestamp - lastTimeRef s1 in
  let s2 := setLastTimeRef timestamp s1 in
  let s3 := setElapsedTime (elapsedTime s2 + deltaTime / 1000) s2 in
  let (h, s4) := requestAnimationFrame s3 in
  setAnimationRef (Some h) s4.

(** Second effect (lines 61-82), dependency [isRunning]: the body. *)
Definition animationEffect (s : AppState) : AppState :=
  if negb (isRunning s) then s
  else
    let (h, s1) := requestAnimationFrame s in
    setAnimationRef (Some h) s1.

(** The cleanup the second effect returns (lines 77-81). *)
Definition animationCleanup (s : AppState) : AppState :=
  if truthyHandle (animationRef s)
  then cancelAnimationFrame (animationRef s) s
  else s.

(** ** Event handlers *)

(** Lines 46-50; [newValue] is [parseFloat(e.target.value)]. *)
Definition handleSliderChange (newValue : R) (s : AppState) : AppState :=
  setSliderValue newValue s.

(** Lines 53-58. *)
Definition toggleScale (s : AppState) : AppState :=
  setSliderValue 0.5 (setUseLogarithmic (negb (useLogarithmic s)) s).

(** Lines 85-91. *)
Definition toggleAnimation (s : AppState) : AppState :=
  let s1 := if isRunning s
            then setLastTimeRef 0 (cancelAnimationFrame (animationRef s) s)
            else s in
  setIsRunning (negb (isRunning s)) s1.

(** Lines 94-99. *)
Definition resetSimulation (s : AppState) : AppState :=
  let s1 := setIsRunning false s in
  let s2 := cancelAnimationFrame (animationRef s1) s1 in
  let s3 := setElapsedTime 0 s2 in
  setLastTimeRef 0 s3.

(** ** Commit: re-running the effects after a render

    After the render that follows a state change React compares each
    effect's dependency list with the one of the previous commit.  For every
    effect whose list changed it first runs the cleanup the previous run
    returned, then the body.  The second effect returns a cleanup only when
    it ran with [isRunning] true.  The [setVelocity] of the first effect
    causes one more render, in which no dependency differs and no effect
    runs. *)

Definition velocityDepsChanged (prev s : AppState) : bool :=
  negb (if Req_dec_T (sliderValue prev) (sliderValue s) then true else false)
  || negb (Bool.eqb (useLogarithmic prev) (useLogarithmic s)).

Definition animationDepsChanged (prev s : AppState) : bool :=
  negb (Bool.eqb (isRunning prev) (isRunning s)).

Definition commit (prev s : AppState) : AppState :=
  let s1 := if animationDepsChanged prev s && isRunning prev
            then animationCleanup s else s in
  let s2 := if velocityDepsChanged prev s then velocityEffect s1 else s1 in
  if animationDepsChanged prev s then animationEffect s2 else s2.

(** The first commit runs every effect body. *)
Definition mount : AppState :=
  animationEffect (velocityEffect initialState).

(** ** Events *)

(** The host runs the callbacks of the given pending requests, each with the
    frame's timestamp. *)
Definition runPending (timestamp : R) (pending : list nat) (s : AppState)
  : AppState :=
  fold_left (fun acc _ => animate timestamp acc) pending s.

(** A frame of the host: the callbacks pending at the start of the frame
    run once each with the frame's timestamp; requests made meanwhile wait
    for the next frame. *)
Definition frame (timestamp : R) (s : AppState) : AppState :=
  runPending timestamp (frameQueue s) (setFrameQueue [] s).

Inductive Event : Type :=
| SliderChange (newValue : R)
| ScaleClick
| StartPauseClick
| ResetClick
| ViewClick (m : ViewMode)
| Frame (timestamp : R).

(** The handler of an event. *)
Definition handle (e : Event) (s : AppState) : AppState :=
  match e with
  | SliderChange x  => handleSliderChange x s
  | ScaleClick      => toggleScale s
  | StartPauseClick => toggleAnimation s
  | ResetClick      => resetSimulation s
  | ViewClick m     => setViewMode m s
  | Frame t         => frame t s
  end.

(** One event: its handler, then the commit of the resulting render. *)
Definition step (e : Event) (s : AppState) : AppState :=
  commit s (handle e s).

(** A run of events, first event first. *)
Definition run (es : list Event) (s : AppState) : AppState :=
  fold_left (fun acc e => step e acc) es s.

(** The states the mounted component can be in. *)
Definition reachable (s : AppState) : Prop :=
  exists es, s = run es mount.

(** The clock's part of the state: running flag, stationary seconds and the
    timestamp of the last tick. *)
Definition clockState (s : AppState) : bool * R * R :=
  (isRunning s, elapsedTime s, lastTimeRef s).

(** ** Predicates on states and on sequences of timestamps *)

(** What holds of every state the mounted component reaches:
    the velocity is the image of the slider under the current scale;
    when paused, no frame is pending and no baseline is recorded;
    when running, exactly the request named by [animationRef] is pending. *)
Definition wellFormed (s : AppState) : Prop :=
  velocity s = VelocityMapper.newVelocity (useLogarithmic s) (sliderValue s)
  /\ if isRunning s
     then exists h, animationRef s = Some h /\ frameQueue s = [h]
     else frameQueue s = [] /\ lastTimeRef s = 0.

(** Timestamps in the order a clock produces them, none before the recorded
    baseline [last]; [last = 0] means no baseline is recorded. *)
Definition chronological (last : R) (timestamps : list R) : Prop :=
  Sorted Rle timestamps
  /\ (last = 0 \/ Forall (fun t => last <= t) timestamps).

(** ** What the view reads (lines 102, 169-178, 216, 237) *)

(** [a > b] and [a < b] on numbers, as the render tests them. *)
Definition numGt (a b : R) : bool := if Rgt_dec a b then true else false.
Definition numLt (a b : R) : bool := if Rlt_dec a b then true else false.

(** The number behind [velocityPercent] (line 102), before [toFixed]. *)
Definition velocityPercent (s : AppState) : R := velocity s * 100.

(** Line 169: [velocity > 0.6 && velocity < 0.7 && !useLogarithmic], the
    condition of the note "(Effects becoming noticeable)". *)
Definition noticeableNote (s : AppState) : bool :=
  numGt (velocity s) 0.6 && numLt (velocity s) 0.7
  && negb (useLogarithmic s).

(** Line 174: [velocity > 0.99], the condition of the note "(Extreme
    relativistic effects)". *)
Definition extremeNote (s : AppState) : bool :=
  numGt (velocity s) 0.99.

(** Line 216: the width of the moving ruler, in percent of the stationary
    one, [lengthContraction * 100]. *)
Definition rulerWidth (s : AppState) : R :=
  Kinematics.lengthContraction (velocity s) * 100.

(** Line 237: [10 * lengthContraction], the length a 10 m object shows. *)
Definition contractedTenMetres (s : AppState) : R :=
  10 * Kinematics.lengthContraction (velocity s).

(** ** Events the page can produce *)

(** The range input has [min="0"] and [max="1"] (lines 151-159): a slider
    event carries a position between 0 and 1. *)
Definition validEvent (e : Event) : Prop :=
  match e with
  | SliderChange x => 0 <= x <= 1
  | _ => True
  end.

(** The timestamps of the frames of a run, in order. *)
Fixpoint frameTimestamps (es : list Event) : list R :=
  match es with
  | [] => []
  | Frame t :: es' => t :: frameTimestamps es'
  | _ :: es' => frameTimestamps es'
  end.

(** ** The Start / Pause button (lines 259-264)

    The page has one button for both; it reads ['Pause'] while the clock
    runs and ['Start'] otherwise, and its click handler is
    [toggleAnimation]. *)
Inductive ButtonLabel : Set := StartLabel | PauseLabel.

(** [{isRunning ? 'Pause' : 'Start'}] *)
Definition startPauseLabel (s : AppState) : ButtonLabel :=
  if isRunning s then PauseLabel else StartLabel.

(** The user presses the button that reads [l].  If the button reads [l] the
    click reaches [toggleAnimation]; if it reads the other word the page
    has no such button to press and nothing happens. *)
Definition press (l : ButtonLabel) (s : AppState) : AppState :=
  match l, startPauseLabel s with
  | StartLabel, StartLabel => step StartPauseClick s
  | PauseLabel, PauseLabel => step StartPauseClick s
  | _, _ => s
  end.

(** The velocity side of the state: velocity, slider position, scale and
    view. *)
Definition mappingState (s : AppState) : R * R * bool * ViewMode :=
  (velocity s, sliderValue s, useLogarithmic s, viewMode s).

(** The handle counter is positive and the handle in [animationRef], if any,
    is one the host has issued: positive and below the counter. *)
Definition handlesIssued (s : AppState) : Prop :=
  (0 < nextHandle s)%nat
  /\ forall h, animationRef s = Some h -> (0 < h < nextHandle s)%nat.

(** ** The earlier variant of the component (src/unnamed/part_000, lines
       1-100 and 134-141)

    Same frame callback, no [sliderValue] cell: the slider handler computes
    the velocity itself, the scale toggle only flips the mode, and Start
    clears the stationary seconds. *)

Module FirstVariant.

Record State : Type := mkState {
  velocity       : R;
  viewMode       : ViewMode;
  isRunning      : bool;
  useLogarithmic : bool;
  elapsedTime    : R;
  animationRef   : option nat;
  lastTimeRef    : R;
  frameQueue     : list nat;
  nextHandle     : nat
}.

Definition setVelocity (x : R) (s : State) : State :=
  mkState x (viewMode s) (isRunning s) (useLogarithmic s) (elapsedTime s)
          (animationRef s) (lastTimeRef s) (frameQueue s) (nextHandle s).

Definition setIsRunning (b : bool) (s : State) : State :=
  mkState (velocity s) (viewMode s) b (useLogarithmic s) (elapsedTime s)
          (animationRef s) (lastTimeRef s) (frameQueue s) (nextHandle s).

Definition setUseLogarithmic (b : bool) (s : State) : State :=
  mkState (velocity s) (viewMode s) (isRunning s) b (elapsedTime s)
          (animationRef s) (lastTimeRef s) (frameQueue s) (nextHandle s).

Definition setElapsedTime (x : R) (s : State) : State :=
  mkState (velocity s) (viewMode s) (isRunning s) (useLogarithmic s) x
          (animationRef s) (lastTimeRef s) (frameQueue s) (nextHandle s).

Definition setAnimationRef (h : option nat) (s : State) : State :=
  mkState (velocity s) (viewMode s) (isRunning s) (useLogarithmic s)
          (elapsedTime s) h (lastTimeRef s) (frameQueue s) (nextHandle s).

Definition setLastTimeRef (x : R) (s : State) : State :=
  mkState (velocity s) (viewMode s) (isRunning s) (useLogarithmic s)
          (elapsedTime s) (animationRef s) x (frameQueue s) (nextHandle s).

Definition setFrameQueue (q : list nat) (s : State) : State :=
  mkState (velocity s) (viewMode s) (isRunning s) (useLogarithmic s)
          (elapsedTime s) (animationRef s) (lastTimeRef s) q (nextHandle s).

(** Lines 5-13. *)
Definition initialState : State :=
  mkState 0.5 LengthView false false 0 None 0 [] 1.

Definition requestAnimationFrame (s : State) : nat * State :=
  (nextHandle s,
   mkState (velocity s) (viewMode s) (isRunning s) (useLogarithmic s)
           (elapsedTime s) (animationRef s) (lastTimeRef s)
           (frameQueue s ++ [nextHandle s]) (S (nextHandle s))).

Definition cancelAnimationFrame (h : option nat) (s : State) : State :=
  match h with
  | None => s
  | Some n => setFrameQueue (remove Nat.eq_dec n (frameQueue s)) s
  end.

(** The velocity [handleVelocityChange] (lines 21-35) passes to
    [setVelocity]; [value] is [parseFloat(e.target.value)]. *)
Definition newVelocity (useLogarithmic : bool) (value : R) : R :=
  if useLogarithmic then
    let sliderValue := value in
    let newVelocity := 0.1 + (1 - 0.1) * (1 - (1 - sliderValue) ^ 4) in
    Rmin newVelocity 0.99
  else value.

Definition handleVelocityChange (value : R) (s : State) : State :=
  setVelocity (newVelocity (useLogarithmic s) value) s.

(** Lines 38-40. *)
Definition toggleScale (s : State) : State :=
  setUseLogarithmic (negb (useLogarithmic s)) s.

(** Line 138, the [value] the range input is rendered with.
    [Math.pow(x, 0.25)] is the fourth root, written [sqrt (sqrt x)]; its
    argument [1 - (1 - velocity - 0.1) / 0.9] is not negative for a
    velocity that is not. *)
Definition sliderPosition (s : State) : R :=
  if useLogarithmic s
  then sqrt (sqrt (1 - (1 - velocity s - 0.1) / 0.9))
  else velocity s.

(** Lines 46-55. *)
Definition animate (timestamp : R) (s : State) : State :=
  let s1 := if Req_dec_T (lastTimeRef s) 0
            then setLastTimeRef timestamp s else s in
  let deltaTime := timestamp - lastTimeRef s1 in
  let s2 := setLastTimeRef timestamp s1 in
  let s3 := setElapsedTime (elapsedTime s2 + deltaTime / 1000) s2 in
  let (h, s4) := requestAnimationFrame s3 in
  setAnimationRef (Some h) s4.

(** Lines 43-64: body and cleanup of the effect on [isRunning]. *)
Definition animationEffect (s : State) : State :=
  if negb (isRunning s) then s
  else
    let (h, s1) := requestAnimationFrame s in
    setAnimationRef (Some h) s1.

Definition animationCleanup (s : State) : State :=
  if truthyHandle (animationRef s)
  then cancelAnimationFrame (animationRef s) s
  else s.

(** Lines 67-75. *)
Definition toggleAnimation (s : State) : State :=
  let s1 := if isRunning s
            then setLastTimeRef 0 (cancelAnimationFrame (animationRef s) s)
            else setElapsedTime 0 s in
  setIsRunning (negb (isRunning s)) s1.

(** The commit after a render: the one effect depends on [isRunning]. *)
Definition commit (prev s : State) : State :=
  if Bool.eqb (isRunning prev) (isRunning s) then s
  else animationEffect (if isRunning prev then animationCleanup s else s).

(** A click on Start / Pause, with its commit. *)
Definition clickStartPause (s : State) : State :=
  commit s (toggleAnimation s).

End FirstVariant.

(** * Properties *)

Import Kinematics VelocityMapper.

(** ** The frame callback *)

Section Animate.

Variables (timestamp : R) (s : AppState).

Lemma animate_lastTimeRef : lastTimeRef (animate timestamp s) = timestamp.
Proof. reflexivity. Qed.

Lemma animate_isRunning : isRunning (animate timestamp s) = isRunning s.
Proof.
  unfold animate. destruct (Req_dec_T (lastTimeRef s) 0); reflexivity.
Qed.

(** The baseline rule: with no baseline recorded the tick adds nothing. *)
Lemma animate_first_tick :
  lastTimeRef s = 0 ->
  elapsedTime (animate timestamp s) = elapsedTime s.
Proof.
  intros H0. unfold animate.
  destruct (Req_dec_T (lastTimeRef s) 0); [| contradiction].
  cbn. lra.
Qed.

(** With a baseline the tick adds the time since that baseline. *)
Lemma animate_next_tick :
  lastTimeRef s <> 0 ->
  elapsedTime (animate timestamp s)
  = elapsedTime s + (timestamp - lastTimeRef s) / 1000.
Proof.
  intros H0. unfold animate.
  destruct (Req_dec_T (lastTimeRef s) 0); [contradiction | reflexivity].
Qed.

Lemma animate_velocity : velocity (animate timestamp s) = velocity s.
Proof.
  unfold animate. destruct (Req_dec_T (lastTimeRef s) 0); reflexivity.
Qed.

Lemma animate_sliderValue : sliderValue (animate timestamp s) = sliderValue s.
Proof.
  unfold animate. destruct (Req_dec_T (lastTimeRef s) 0); reflexivity.
Qed.

Lemma animate_useLogarithmic :
  useLogarithmic (animate timestamp s) = useLogarithmic s.
Proof.
  unfold animate. destruct (Req_dec_T (lastTimeRef s) 0); reflexivity.
Qed.

(** The callback always re-registers itself. *)
Lemma animate_reschedules :
  animationRef (animate timestamp s) = Some (nextHandle s)
  /\ frameQueue (animate timestamp s) = frameQueue s ++ [nextHandle s].
Proof.
  unfold animate. destruct (Req_dec_T (lastTimeRef s) 0); split; reflexivity.
Qed.

End Animate.

(** ** Commits *)

Lemma Req_dec_T_same (A : Type) (x : R) (a b : A) :
  (if Req_dec_T x x then a else b) = a.
Proof. destruct (Req_dec_T x x); [reflexivity | contradiction]. Qed.

Lemma Req_dec_T_other (A : Type) (x y : R) (a b : A) :
  x <> y -> (if Req_dec_T x y then a else b) = b.
Proof. intros H. destruct (Req_dec_T x y); [contradiction | reflexivity]. Qed.

(** No dependency changed: no effect runs. *)
Lemma commit_unchanged (prev s : AppState) :
  sliderValue prev = sliderValue s ->
  useLogarithmic prev = useLogarithmic s ->
  isRunning prev = isRunning s ->
  commit prev s = s.
Proof.
  intros Hs Hl Hr. unfold commit, velocityDepsChanged, animationDepsChanged.
  now rewrite Hs, Hl, Hr, Req_dec_T_same, !Bool.eqb_reflx.
Qed.

(** Only the scale changed: the velocity effect runs. *)
Lemma commit_scale_changed (prev s : AppState) :
  useLogarithmic s = negb (useLogarithmic prev) ->
  isRunning prev = isRunning s ->
  commit prev s = velocityEffect s.
Proof.
  intros Hl Hr. unfold commit, velocityDepsChanged, animationDepsChanged.
  rewrite Hl, Hr, Bool.eqb_reflx.
  destruct (useLogarithmic prev); cbn; now rewrite orb_true_r.
Qed.

(** Only the slider changed: the velocity effect runs. *)
Lemma commit_slider_changed (prev s : AppState) :
  sliderValue prev <> sliderValue s ->
  isRunning prev = isRunning s ->
  commit prev s = velocityEffect s.
Proof.
  intros Hs Hr. unfold commit, velocityDepsChanged, animationDepsChanged.
  now rewrite Hr, Bool.eqb_reflx, (Req_dec_T_other _ _ _ _ _ Hs).
Qed.

(** Only the running flag changed: the animation effect runs, after the
    cleanup of its previous run if that run registered one. *)
Lemma commit_running_changed (prev s : AppState) :
  sliderValue prev = sliderValue s ->
  useLogarithmic prev = useLogarithmic s ->
  isRunning s = negb (isRunning prev) ->
  commit prev s
  = animationEffect (if isRunning prev then animationCleanup s else s).
Proof.
  intros Hs Hl Hr. unfold commit, velocityDepsChanged, animationDepsChanged.
  rewrite Hs, Hl, Hr, Req_dec_T_same, Bool.eqb_reflx.
  destruct (isRunning prev); reflexivity.
Qed.

(** ** Steps *)

Lemma step_ScaleClick (s : AppState) :
  step ScaleClick s = velocityEffect (toggleScale s).
Proof. unfold step, handle. now apply commit_scale_changed. Qed.

Lemma step_SliderChange_same (s : AppState) :
  step (SliderChange (sliderValue s)) s = setSliderValue (sliderValue s) s.
Proof. unfold step, handle. now apply commit_unchanged. Qed.

Lemma step_SliderChange_other (x : R) (s : AppState) :
  sliderValue s <> x ->
  step (SliderChange x) s = velocityEffect (handleSliderChange x s).
Proof. intros H. unfold step, handle. now apply commit_slider_changed. Qed.

Lemma step_StartPauseClick (s : AppState) :
  step StartPauseClick s
  = animationEffect (if isRunning s
                     then animationCleanup (toggleAnimation s)
                     else toggleAnimation s).
Proof.
  unfold step, handle. rewrite commit_running_changed; try reflexivity;
    unfold toggleAnimation; destruct (isRunning s);
    try reflexivity; destruct (animationRef s); reflexivity.
Qed.

Lemma cancelAnimationFrame_fields (h : option nat) (s : AppState) :
  velocity (cancelAnimationFrame h s) = velocity s
  /\ sliderValue (cancelAnimationFrame h s) = sliderValue s
  /\ useLogarithmic (cancelAnimationFrame h s) = useLogarithmic s
  /\ isRunning (cancelAnimationFrame h s) = isRunning s
  /\ elapsedTime (cancelAnimationFrame h s) = elapsedTime s
  /\ lastTimeRef (cancelAnimationFrame h s) = lastTimeRef s
  /\ animationRef (cancelAnimationFrame h s) = animationRef s.
Proof. destruct h; cbn; repeat split; reflexivity. Qed.

Lemma resetSimulation_fields (s : AppState) :
  velocity (resetSimulation s) = velocity s
  /\ sliderValue (resetSimulation s) = sliderValue s
  /\ useLogarithmic (resetSimulation s) = useLogarithmic s
  /\ isRunning (resetSimulation s) = false
  /\ elapsedTime (resetSimulation s) = 0
  /\ lastTimeRef (resetSimulation s) = 0
  /\ animationRef (resetSimulation s) = animationRef s
  /\ frameQueue (resetSimulation s)
     = frameQueue (cancelAnimationFrame (animationRef s) s).
Proof.
  unfold resetSimulation. cbn.
  destruct (animationRef s) eqn:E; cbn; rewrite ?E; repeat split; reflexivity.
Qed.

Lemma step_ResetClick (s : AppState) :
  step ResetClick s
  = if isRunning s
    then animationEffect (animationCleanup (resetSimulation s))
    else resetSimulation s.
Proof.
  destruct (resetSimulation_fields s) as (_ & Hs & Hl & Hr & _).
  unfold step, handle. destruct (isRunning s) eqn:Hrun.
  - rewrite commit_running_changed, Hrun; auto. now rewrite Hr, Hrun.
  - apply commit_unchanged; auto. now rewrite Hr.
Qed.

Lemma step_ViewClick (m : ViewMode) (s : AppState) :
  step (ViewClick m) s = setViewMode m s.
Proof. unfold step, handle. now apply commit_unchanged. Qed.

(** What a slider change leaves alone. *)
Lemma step_SliderChange_clock (x : R) (s : AppState) :
  isRunning (step (SliderChange x) s) = isRunning s
  /\ elapsedTime (step (SliderChange x) s) = elapsedTime s
  /\ lastTimeRef (step (SliderChange x) s) = lastTimeRef s
  /\ animationRef (step (SliderChange x) s) = animationRef s
  /\ frameQueue (step (SliderChange x) s) = frameQueue s
  /\ nextHandle (step (SliderChange x) s) = nextHandle s.
Proof.
  destruct (Req_dec_T (sliderValue s) x) as [E | E].
  - subst x. rewrite step_SliderChange_same. repeat split; reflexivity.
  - rewrite (step_SliderChange_other x s E). repeat split; reflexivity.
Qed.

Lemma step_SliderChange_velocity (x : R) (s : AppState) :
  velocity s = newVelocity (useLogarithmic s) (sliderValue s) ->
  velocity (step (SliderChange x) s) = newVelocity (useLogarithmic s) x
  /\ sliderValue (step (SliderChange x) s) = x
  /\ useLogarithmic (step (SliderChange x) s) = useLogarithmic s.
Proof.
  intros Hv. destruct (Req_dec_T (sliderValue s) x) as [E | E].
  - subst x. rewrite step_SliderChange_same. cbn. auto.
  - rewrite (step_SliderChange_other x s E). cbn. auto.
Qed.

(** ** Kinematics *)

Lemma sqrt_one_minus_sq_pos (v : R) : 0 < v < 1 -> 0 < sqrt (1 - v * v).
Proof. intros Hv. apply sqrt_lt_R0. nra. Qed.

Lemma gamma_pos (v : R) : 0 < v < 1 -> 0 < gamma v.
Proof.
  intros Hv. unfold gamma.
  apply Rdiv_lt_0_compat; [lra | now apply sqrt_one_minus_sq_pos].
Qed.

Lemma gamma_0_6 : gamma 0.6 = 1.25.
Proof.
  unfold gamma.
  replace (1 - 0.6 * 0.6) with (0.8 * 0.8) by lra.
  rewrite sqrt_square by lra. lra.
Qed.

(** C1.  For every velocity [v] strictly between 0 and 1 the engine's
    [gamma] is [1 / sqrt (1 - v^2)]; the length-contraction factor times
    [gamma] is 1 (exactly, over the reals, which is what "within
    floating-point tolerance" idealises); and [timeDilation] is [gamma]. *)
Theorem kinematic_factors (v : R) :
  0 < v < 1 ->
  gamma v = 1 / sqrt (1 - v ^ 2)
  /\ lengthContraction v * gamma v = 1
  /\ timeDilation v = gamma v.
Proof.
  intros Hv. split; [| split].
  - unfold gamma. replace (v ^ 2) with (v * v) by ring. reflexivity.
  - pose proof (gamma_pos v Hv) as Hg. unfold lengthContraction.
    field. lra.
  - reflexivity.
Qed.

Lemma kinematic_factors_witness :
  0 < 0.6 < 1
  /\ gamma 0.6 = 1 / sqrt (1 - 0.6 ^ 2)
  /\ lengthContraction 0.6 * gamma 0.6 = 1
  /\ timeDilation 0.6 = gamma 0.6.
Proof.
  assert (H : 0 < 0.6 < 1) by lra.
  split; [exact H | exact (kinematic_factors 0.6 H)].
Defined.

(** ** Velocity mapping *)

Lemma newVelocity_logarithmic (c : R) :
  newVelocity true c = 0.9 + 0.0999 * (1 - (1 - c) ^ 4).
Proof. unfold newVelocity. cbv zeta. lra. Qed.

Lemma newVelocity_linear (c : R) :
  newVelocity false c = 0.1 + 0.8 * c.
Proof. unfold newVelocity. cbv zeta. lra. Qed.

(** C3, refuted as stated.  The claimed comparison is the wrong way round:
    the step from 0.8 to 0.9 moves the velocity by 0.0999 * 0.0015, the
    step from 0.4 to 0.5 by 0.0999 * 0.0671. *)
Lemma logarithmic_resolution_counterexample :
  ~ (newVelocity true 0 = 0.9
     /\ newVelocity true 1 = 0.9999
     /\ newVelocity true 0.9 - newVelocity true 0.8
        > newVelocity true 0.5 - newVelocity true 0.4).
Proof.
  intros (_ & _ & H). rewrite !newVelocity_logarithmic in H.
  simpl pow in H. lra.
Qed.

(** C3, amended.  The logarithmic map is
    [0.9 + 0.0999 * (1 - (1 - c)^4)]; it sends 0 to 0.9 and 1 to 0.9999;
    and equal control steps move the velocity LESS near the top of the
    range: the step from 0.8 to 0.9 changes the velocity by less than the
    step from 0.4 to 0.5. *)
Theorem logarithmic_map :
  (forall c, newVelocity true c = 0.9 + 0.0999 * (1 - (1 - c) ^ 4))
  /\ newVelocity true 0 = 0.9
  /\ newVelocity true 1 = 0.9999
  /\ newVelocity true 0.9 - newVelocity true 0.8
     < newVelocity true 0.5 - newVelocity true 0.4.
Proof.
  split; [exact newVelocity_logarithmic |].
  rewrite !newVelocity_logarithmic. simpl pow. lra.
Qed.

(** ** Scale toggle and slider *)

(** C8.  Clicking the scale toggle flips the mode and puts the slider at
    0.5, whatever the slider showed and whichever the mode was; the
    velocity committed afterwards is the new mode's image of 0.5. *)
Theorem toggleScale_resets_slider (s : AppState) :
  sliderValue (step ScaleClick s) = 0.5
  /\ useLogarithmic (step ScaleClick s) = negb (useLogarithmic s)
  /\ velocity (step ScaleClick s)
     = newVelocity (useLogarithmic (step ScaleClick s))
                   (sliderValue (step ScaleClick s))
  /\ velocity (step ScaleClick s) = newVelocity (negb (useLogarithmic s)) 0.5.
Proof.
  rewrite step_ScaleClick. repeat split; reflexivity.
Qed.

(** C10.  A slider change, together with the velocity effect it triggers,
    leaves the running flag, the stationary seconds and the last tick
    timestamp as they were, running or not; the pending frame request is
    untouched as well. *)
Theorem slider_change_preserves_clock (x : R) (s : AppState) :
  clockState (step (SliderChange x) s) = clockState s
  /\ animationRef (step (SliderChange x) s) = animationRef s
  /\ frameQueue (step (SliderChange x) s) = frameQueue s.
Proof.
  destruct (step_SliderChange_clock x s) as (H1 & H2 & H3 & H4 & H5 & _).
  unfold clockState. rewrite H1, H2, H3. auto.
Qed.

(** ** Frames and the invariant of the mounted component *)

Section FrameFold.

Variable timestamp : R.

Lemma runPending_cons (h : nat) (pending : list nat) (s : AppState) :
  runPending timestamp (h :: pending) s
  = runPending timestamp pending (animate timestamp s).
Proof. reflexivity. Qed.

Lemma runPending_frame (pending : list nat) (s : AppState) :
  isRunning (runPending timestamp pending s) = isRunning s
  /\ sliderValue (runPending timestamp pending s) = sliderValue s
  /\ useLogarithmic (runPending timestamp pending s) = useLogarithmic s
  /\ velocity (runPending timestamp pending s) = velocity s.
Proof.
  revert s. induction pending as [|h pending IH]; intros s.
  - cbn. auto.
  - rewrite runPending_cons.
    destruct (IH (animate timestamp s)) as (H1 & H2 & H3 & H4).
    rewrite H1, H2, H3, H4, animate_isRunning, animate_sliderValue,
      animate_useLogarithmic, animate_velocity. auto.
Qed.

End FrameFold.

Lemma frame_frame (t : R) (s : AppState) :
  isRunning (frame t s) = isRunning s
  /\ sliderValue (frame t s) = sliderValue s
  /\ useLogarithmic (frame t s) = useLogarithmic s
  /\ velocity (frame t s) = velocity s.
Proof.
  unfold frame. apply (runPending_frame t (frameQueue s) (setFrameQueue [] s)).
Qed.

(** A frame changes no dependency of an effect, so its commit runs none. *)
Lemma step_Frame (t : R) (s : AppState) : step (Frame t) s = frame t s.
Proof.
  destruct (frame_frame t s) as (H1 & H2 & H3 & _).
  unfold step, handle. now apply commit_unchanged.
Qed.

(** With nothing pending the host has no callback to run. *)
Lemma frame_nothing_pending (t : R) (s : AppState) :
  frameQueue s = [] -> frame t s = s.
Proof. intros H. unfold frame. rewrite H. destruct s; cbn in *; now subst. Qed.

(** With one request pending the frame is one call of [animate]. *)
Lemma frame_one_pending (t : R) (s : AppState) (h : nat) :
  frameQueue s = [h] ->
  frame t s = animate t (setFrameQueue [] s).
Proof. intros H. unfold frame. rewrite H. reflexivity. Qed.

Lemma mount_wellFormed : wellFormed mount.
Proof. unfold wellFormed. cbn. auto. Qed.

Lemma remove_single (h : nat) : remove Nat.eq_dec h [h] = [].
Proof. cbn. destruct (Nat.eq_dec h h); [reflexivity | contradiction]. Qed.

Lemma cancelAnimationFrame_empty (h : option nat) (s : AppState) :
  frameQueue s = [] -> frameQueue (cancelAnimationFrame h s) = [].
Proof. intros H. destruct h; cbn; now rewrite H. Qed.

Lemma animationCleanup_fields (s : AppState) :
  velocity (animationCleanup s) = velocity s
  /\ sliderValue (animationCleanup s) = sliderValue s
  /\ useLogarithmic (animationCleanup s) = useLogarithmic s
  /\ isRunning (animationCleanup s) = isRunning s
  /\ elapsedTime (animationCleanup s) = elapsedTime s
  /\ lastTimeRef (animationCleanup s) = lastTimeRef s
  /\ animationRef (animationCleanup s) = animationRef s
  /\ (frameQueue s = [] -> frameQueue (animationCleanup s) = []).
Proof.
  unfold animationCleanup. destruct (truthyHandle (animationRef s)).
  - destruct (cancelAnimationFrame_fields (animationRef s) s)
      as (F1 & F2 & F3 & F4 & F5 & F6 & F7).
    repeat split; try assumption. apply cancelAnimationFrame_empty.
  - repeat split; auto.
Qed.

Lemma animationEffect_paused (s : AppState) :
  isRunning s = false -> animationEffect s = s.
Proof. intros H. unfold animationEffect. now rewrite H. Qed.

Lemma toggleAnimation_running (s : AppState) :
  isRunning s = true ->
  velocity (toggleAnimation s) = velocity s
  /\ sliderValue (toggleAnimation s) = sliderValue s
  /\ useLogarithmic (toggleAnimation s) = useLogarithmic s
  /\ isRunning (toggleAnimation s) = false
  /\ elapsedTime (toggleAnimation s) = elapsedTime s
  /\ lastTimeRef (toggleAnimation s) = 0
  /\ frameQueue (toggleAnimation s)
     = frameQueue (cancelAnimationFrame (animationRef s) s).
Proof.
  intros Hr. unfold toggleAnimation. rewrite Hr.
  destruct (animationRef s); cbn; repeat split; reflexivity.
Qed.

(** The state after a pause, up to the host's queue. *)
Lemma step_pause (s : AppState) :
  isRunning s = true ->
  step StartPauseClick s = animationCleanup (toggleAnimation s).
Proof.
  intros Hr. rewrite step_StartPauseClick, Hr.
  apply animationEffect_paused.
  destruct (animationCleanup_fields (toggleAnimation s))
    as (_ & _ & _ & -> & _).
  now apply toggleAnimation_running.
Qed.

(** The state after a start. *)
Lemma step_start (s : AppState) :
  isRunning s = false ->
  step StartPauseClick s
  = setAnimationRef (Some (nextHandle s))
      (snd (requestAnimationFrame (setIsRunning true s))).
Proof.
  intros Hr. rewrite step_StartPauseClick, Hr.
  unfold toggleAnimation. rewrite Hr. reflexivity.
Qed.

(** Pausing a well-formed running state empties the host's queue. *)
Lemma pause_wellFormed (s : AppState) :
  wellFormed s -> isRunning s = true ->
  wellFormed (step StartPauseClick s).
Proof.
  intros (Hv & Hq) Hr. rewrite Hr in Hq. destruct Hq as (h & Href & Hqueue).
  rewrite (step_pause s Hr).
  destruct (toggleAnimation_running s Hr) as (V & S & L & R & _ & T & Q).
  destruct (animationCleanup_fields (toggleAnimation s))
    as (V' & S' & L' & R' & _ & T' & _ & Q').
  split; [now rewrite V', S', L', V, S, L |].
  rewrite R', R, T', T. split; [| reflexivity].
  apply Q'. rewrite Q, Href. cbn. now rewrite Hqueue, remove_single.
Qed.

Lemma start_wellFormed (s : AppState) :
  wellFormed s -> isRunning s = false ->
  wellFormed (step StartPauseClick s).
Proof.
  intros (Hv & Hq) Hr. rewrite Hr in Hq. destruct Hq as (Hqueue & Hlast).
  rewrite (step_start s Hr).
  split; cbn; [exact Hv | rewrite Hqueue; cbn; eauto].
Qed.

Lemma reset_wellFormed (s : AppState) :
  wellFormed s -> wellFormed (step ResetClick s).
Proof.
  intros (Hv & Hq).
  destruct (resetSimulation_fields s) as (V & S & L & R & _ & T & A & Q).
  assert (Hempty : frameQueue (resetSimulation s) = []).
  { rewrite Q. destruct (isRunning s).
    - destruct Hq as (h & Href & Hqueue). rewrite Href. cbn.
      now rewrite Hqueue, remove_single.
    - destruct Hq as (Hqueue & _). now apply cancelAnimationFrame_empty. }
  assert (Hreset : wellFormed (resetSimulation s)).
  { split; [now rewrite V, S, L | rewrite R; auto]. }
  rewrite step_ResetClick. destruct (isRunning s); [| exact Hreset].
  destruct (animationCleanup_fields (resetSimulation s))
    as (V' & S' & L' & R' & _ & T' & _ & Q').
  rewrite animationEffect_paused by now rewrite R'.
  split; [now rewrite V', S', L', V, S, L |].
  rewrite R', R, T', T. auto.
Qed.

Lemma step_wellFormed (e : Event) (s : AppState) :
  wellFormed s -> wellFormed (step e s).
Proof.
  intros Hwf. destruct e as [x | | | | m | t].
  - (* slider *)
    destruct Hwf as (Hv & Hq).
    destruct (step_SliderChange_velocity x s Hv) as (V1 & V2 & V3).
    destruct (step_SliderChange_clock x s) as (C1 & _ & C3 & C4 & C5 & _).
    split; [now rewrite V1, V2, V3 |].
    now rewrite C1, C3, C4, C5.
  - (* scale *)
    destruct Hwf as (Hv & Hq).
    rewrite step_ScaleClick. split; [reflexivity | exact Hq].
  - (* start / pause *)
    destruct (isRunning s) eqn:Hr;
      [now apply pause_wellFormed | now apply start_wellFormed].
  - (* reset *)
    now apply reset_wellFormed.
  - (* view *)
    rewrite step_ViewClick. exact Hwf.
  - (* frame *)
    destruct Hwf as (Hv & Hq).
    rewrite step_Frame. destruct (isRunning s) eqn:Hr.
    + destruct Hq as (h & Href & Hqueue).
      rewrite (frame_one_pending t s h Hqueue).
      split.
      * now rewrite animate_velocity, animate_useLogarithmic,
          animate_sliderValue.
      * destruct (animate_reschedules t (setFrameQueue [] s)) as (A1 & A2).
        rewrite animate_isRunning.
        change (isRunning (setFrameQueue [] s)) with (isRunning s).
        rewrite Hr, A1, A2. cbn. eauto.
    + destruct Hq as (Hqueue & Hlast).
      rewrite (frame_nothing_pending t s Hqueue).
      split; [exact Hv | rewrite Hr; auto].
Qed.

Lemma run_wellFormed (es : list Event) (s : AppState) :
  wellFormed s -> wellFormed (run es s).
Proof.
  revert s. induction es as [|e es IH]; intros s Hs; cbn; [exact Hs |].
  apply IH, step_wellFormed, Hs.
Qed.

Lemma reachable_wellFormed (s : AppState) : reachable s -> wellFormed s.
Proof. intros [es ->]. apply run_wellFormed, mount_wellFormed. Qed.

(** ** The clock *)

(** Start / Pause from a running state, for every state at all. *)
Lemma pause_clock (s : AppState) :
  isRunning s = true ->
  isRunning (step StartPauseClick s) = false
  /\ elapsedTime (step StartPauseClick s) = elapsedTime s
  /\ lastTimeRef (step StartPauseClick s) = 0.
Proof.
  intros Hr. rewrite (step_pause s Hr).
  destruct (toggleAnimation_running s Hr) as (_ & _ & _ & R & E & T & _).
  destruct (animationCleanup_fields (toggleAnimation s))
    as (_ & _ & _ & R' & E' & T' & _).
  now rewrite R', E', T', R, E, T.
Qed.

(** Start / Pause from a paused state. *)
Lemma start_clock (s : AppState) :
  isRunning s = false ->
  isRunning (step StartPauseClick s) = true
  /\ elapsedTime (step StartPauseClick s) = elapsedTime s
  /\ lastTimeRef (step StartPauseClick s) = lastTimeRef s.
Proof.
  intros Hr. rewrite (step_start s Hr). repeat split; reflexivity.
Qed.

Lemma start_pause_mapping (s : AppState) :
  velocity (step StartPauseClick s) = velocity s
  /\ sliderValue (step StartPauseClick s) = sliderValue s
  /\ useLogarithmic (step StartPauseClick s) = useLogarithmic s.
Proof.
  destruct (isRunning s) eqn:Hr.
  - rewrite (step_pause s Hr).
    destruct (toggleAnimation_running s Hr) as (V & S & L & _).
    destruct (animationCleanup_fields (toggleAnimation s))
      as (V' & S' & L' & _).
    now rewrite V', S', L', V, S, L.
  - rewrite (step_start s Hr). repeat split; reflexivity.
Qed.

(** A frame delivered to the running component is one tick. *)
Lemma frame_running (t : R) (s : AppState) :
  wellFormed s -> isRunning s = true ->
  isRunning (step (Frame t) s) = true
  /\ lastTimeRef (step (Frame t) s) = t
  /\ elapsedTime (step (Frame t) s) = elapsedTime (animate t s).
Proof.
  intros (_ & Hq) Hr. rewrite Hr in Hq. destruct Hq as (h & _ & Hqueue).
  rewrite step_Frame, (frame_one_pending t s h Hqueue).
  rewrite animate_isRunning, animate_lastTimeRef.
  repeat split; [exact Hr |].
  unfold animate. cbn.
  destruct (Req_dec_T (lastTimeRef s) 0); reflexivity.
Qed.

(** A frame while paused finds nothing to run. *)
Lemma frame_paused (t : R) (s : AppState) :
  wellFormed s -> isRunning s = false -> step (Frame t) s = s.
Proof.
  intros (_ & Hq) Hr. rewrite Hr in Hq. destruct Hq as (Hqueue & _).
  now rewrite step_Frame, frame_nothing_pending.
Qed.

Lemma run_cons (e : Event) (es : list Event) (s : AppState) :
  run (e :: es) s = run es (step e s).
Proof. reflexivity. Qed.

Lemma run_app (es1 es2 : list Event) (s : AppState) :
  run (es1 ++ es2) s = run es2 (run es1 s).
Proof. unfold run. apply fold_left_app. Qed.

Lemma reachable_step (e : Event) (s : AppState) :
  reachable s -> reachable (step e s).
Proof.
  intros [es ->]. exists (es ++ [e]). now rewrite run_app.
Qed.

Lemma reachable_run (es : list Event) (s : AppState) :
  reachable s -> reachable (run es s).
Proof.
  intros [es0 ->]. exists (es0 ++ es). now rewrite run_app.
Qed.

Lemma reachable_mount : reachable mount.
Proof. now exists []. Qed.

(** C9.  Coming from the linear scale, the velocity right after the toggle
    is 0.9 + 0.0999 * (1 - 0.5^4) = 0.99365625, for every prior slider
    position.  That is not the middle 0.94995 of the logarithmic range, and
    it is a jump: the linear velocity the component held before, for a
    slider position in [0, 1], was at most 0.9. *)
Theorem linear_to_logarithmic_jump (s : AppState) :
  useLogarithmic s = false ->
  velocity (step ScaleClick s) = 0.9 + 0.0999 * (1 - 0.5 ^ 4)
  /\ velocity (step ScaleClick s) = 0.99365625
  /\ velocity (step ScaleClick s) <> 0.94995
  /\ (reachable s -> 0 <= sliderValue s <= 1 ->
      velocity s <= 0.9 /\ velocity s < velocity (step ScaleClick s)).
Proof.
  intros Hlin. rewrite step_ScaleClick.
  change (velocity (velocityEffect (toggleScale s)))
    with (newVelocity (negb (useLogarithmic s)) 0.5).
  rewrite Hlin. cbn [negb]. rewrite newVelocity_logarithmic. simpl pow.
  split; [lra | split; [lra | split; [lra |]]].
  intros Hreach Hslider. apply reachable_wellFormed in Hreach.
  destruct Hreach as (Hv & _).
  rewrite Hv, Hlin, newVelocity_linear. lra.
Qed.

Lemma linear_to_logarithmic_jump_witness :
  let s := step (SliderChange 0.25) mount in
  velocity (step ScaleClick s) = 0.99365625
  /\ velocity s < velocity (step ScaleClick s).
Proof.
  cbn zeta.
  assert (Hne : sliderValue mount <> 0.25) by (cbn; lra).
  assert (Hlin : useLogarithmic (step (SliderChange 0.25) mount) = false)
    by now rewrite (step_SliderChange_other 0.25 mount Hne).
  assert (Hreach : reachable (step (SliderChange 0.25) mount))
    by apply reachable_step, reachable_mount.
  assert (Hs : 0 <= sliderValue (step (SliderChange 0.25) mount) <= 1).
  { rewrite (step_SliderChange_other 0.25 mount Hne). cbn. lra. }
  destruct (linear_to_logarithmic_jump _ Hlin) as (_ & E & _ & J).
  split; [exact E | exact (proj2 (J Hreach Hs))].
Defined.


(** C6.  Pause a running clock, in any state whatever, and let one more
    call of the frame callback through, with any timestamp: the stationary
    seconds stay what they were before the pause.  Pause has cleared the
    baseline, so the stray tick counts as a first tick. *)
Theorem stray_tick_after_pause (s : AppState) (t : R) :
  isRunning s = true ->
  elapsedTime (step StartPauseClick s) = elapsedTime s
  /\ elapsedTime (animate t (step StartPauseClick s))
     = elapsedTime (step StartPauseClick s).
Proof.
  intros Hr. destruct (pause_clock s Hr) as (_ & E & L).
  split; [exact E | now apply animate_first_tick].
Qed.

Lemma stray_tick_after_pause_witness :
  let running := run [StartPauseClick; Frame 1000; Frame 2500] mount in
  elapsedTime (animate 99000 (step StartPauseClick running))
  = elapsedTime running.
Proof.
  cbn zeta.
  set (running := run [StartPauseClick; Frame 1000; Frame 2500] mount).
  assert (Hr : isRunning running = true).
  { subst running. rewrite !run_cons. cbn [run fold_left].
    destruct (start_clock mount eq_refl) as (R0 & _).
    assert (W0 : wellFormed (step StartPauseClick mount))
      by apply step_wellFormed, mount_wellFormed.
    destruct (frame_running 1000 _ W0 R0) as (R1 & _).
    assert (W1 : wellFormed (step (Frame 1000) (step StartPauseClick mount)))
      by now apply step_wellFormed.
    now destruct (frame_running 2500 _ W1 R1) as (R2 & _). }
  destruct (stray_tick_after_pause running 99000 Hr) as (E1 & E2).
  now rewrite E2, E1.
Defined.



(** ** Monotonicity *)

Lemma Rle_transitive : Relations_1.Transitive Rle.
Proof. intros x y z. apply Rle_trans. Qed.

Lemma chronological_cons (last t : R) (ts : list R) :
  chronological last (t :: ts) ->
  (last = 0 \/ last <= t) /\ chronological t ts.
Proof.
  intros (Hs & Hb). split.
  - destruct Hb as [Hb | Hb]; [now left | right].
    now apply Forall_inv in Hb.
  - apply Sorted_StronglySorted in Hs; [| exact Rle_transitive].
    apply StronglySorted_inv in Hs. destruct Hs as (Hs & Hall).
    split; [now apply StronglySorted_Sorted | now right].
Qed.

(** One tick never takes time back when its timestamp is not before the
    baseline. *)
Lemma animate_elapsed_le (t : R) (s : AppState) :
  lastTimeRef s = 0 \/ lastTimeRef s <= t ->
  elapsedTime s <= elapsedTime (animate t s).
Proof.
  intros H. destruct (Req_dec_T (lastTimeRef s) 0) as [E | E].
  - rewrite (animate_first_tick t s E). lra.
  - rewrite (animate_next_tick t s E). destruct H as [H | H]; [easy | lra].
Qed.

Lemma frames_elapsed_le (ts : list R) :
  forall s,
    wellFormed s -> isRunning s = true ->
    chronological (lastTimeRef s) ts ->
    isRunning (run (map Frame ts) s) = true
    /\ elapsedTime s <= elapsedTime (run (map Frame ts) s).
Proof.
  induction ts as [|t ts IH]; intros s Hwf Hr Hc.
  - cbn. split; [exact Hr | lra].
  - apply chronological_cons in Hc. destruct Hc as (Hb & Hc).
    cbn [map]. rewrite run_cons.
    destruct (frame_running t s Hwf Hr) as (R1 & L1 & E1).
    rewrite <- L1 in Hc.
    destruct (IH _ (step_wellFormed _ _ Hwf) R1 Hc) as (R2 & E2).
    split; [exact R2 |].
    pose proof (animate_elapsed_le t s Hb). lra.
Qed.

(** ** The moving observer's clock *)

(** C4.  The moving observer's seconds are no cell of the state: they are
    computed at each read from the stationary seconds and the dilation
    factor of the velocity then current.  After a slider change or a scale
    toggle the read divides by the factor of the new velocity, with the
    stationary seconds untouched.  At 10 stationary seconds and velocity
    0.6 the factor is 1.25 and the read gives 8. *)
Theorem movingTime_read (s : AppState) :
  movingTime s = elapsedTime s / timeDilation (velocity s)
  /\ (forall x, reachable s ->
        movingTime (step (SliderChange x) s)
        = elapsedTime s / timeDilation (newVelocity (useLogarithmic s) x))
  /\ movingTime (step ScaleClick s)
     = elapsedTime s / timeDilation (newVelocity (negb (useLogarithmic s)) 0.5)
  /\ (elapsedTime s = 10 -> velocity s = 0.6 ->
      timeDilation (velocity s) = 1.25 /\ movingTime s = 8).
Proof.
  split; [reflexivity | split; [| split]].
  - intros x Hreach. apply reachable_wellFormed in Hreach.
    destruct Hreach as (Hv & _).
    destruct (step_SliderChange_velocity x s Hv) as (V & _).
    destruct (step_SliderChange_clock x s) as (_ & E & _).
    unfold movingTime. now rewrite V, E.
  - rewrite step_ScaleClick. reflexivity.
  - intros He Hv. unfold movingTime, timeDilation.
    rewrite He, Hv, gamma_0_6. split; lra.
Qed.

Lemma movingTime_read_witness :
  let s := run [SliderChange 0.625; StartPauseClick; Frame 1000; Frame 11000]
               mount in
  elapsedTime s = 10 /\ velocity s = 0.6 /\ movingTime s = 8.
Proof.
  cbn zeta. rewrite !run_cons. cbn [run fold_left].
  set (s0 := step (SliderChange 0.625) mount).
  destruct (step_SliderChange_velocity 0.625 mount (proj1 mount_wellFormed))
    as (V0 & _).
  destruct (step_SliderChange_clock 0.625 mount) as (R0 & E0 & L0 & _).
  fold s0 in V0, R0, E0, L0.
  assert (W0 : wellFormed s0) by apply step_wellFormed, mount_wellFormed.
  set (s1 := step StartPauseClick s0).
  destruct (start_clock s0 R0) as (R1 & E1 & L1).
  destruct (start_pause_mapping s0) as (V1 & _).
  fold s1 in V1, R1, E1, L1.
  assert (W1 : wellFormed s1) by now apply step_wellFormed.
  set (s2 := step (Frame 1000) s1).
  destruct (frame_running 1000 s1 W1 R1) as (R2 & L2 & E2).
  assert (V2 : velocity s2 = velocity s1).
  { subst s2. rewrite step_Frame. apply frame_frame. }
  fold s2 in R2, L2, E2.
  rewrite L0 in L1. rewrite (animate_first_tick 1000 s1 L1) in E2.
  assert (W2 : wellFormed s2) by now apply step_wellFormed.
  assert (N2 : lastTimeRef s2 <> 0) by (rewrite L2; lra).
  set (s3 := step (Frame 11000) s2).
  destruct (frame_running 11000 s2 W2 R2) as (_ & _ & E3).
  assert (V3 : velocity s3 = velocity s2).
  { subst s3. rewrite step_Frame. apply frame_frame. }
  fold s3 in E3.
  rewrite (animate_next_tick 11000 s2 N2), L2, E2, E1, E0 in E3.
  rewrite V2, V1, V0, newVelocity_linear in V3.
  assert (E : elapsedTime s3 = 10) by (rewrite E3; cbn; lra).
  assert (V : velocity s3 = 0.6) by (rewrite V3; cbn; lra).
  repeat split; [exact E | exact V |].
  exact (proj2 (proj2 (proj2 (proj2 (movingTime_read s3))) E V)).
Defined.

(** * Further properties of the component *)

(** ** Ranges and monotonicity of the factors *)

Lemma sqrt_one_minus_sq_range (v : R) :
  0 <= v < 1 -> 0 < sqrt (1 - v * v) <= 1.
Proof.
  intros Hv. split.
  - apply sqrt_lt_R0. nra.
  - rewrite <- sqrt_1 at 2. apply sqrt_le_1_alt. nra.
Qed.

Lemma lengthContraction_sqrt (v : R) :
  0 <= v < 1 -> lengthContraction v = sqrt (1 - v * v).
Proof.
  intros Hv. destruct (sqrt_one_minus_sq_range v Hv) as (Hpos & _).
  unfold lengthContraction, gamma. field. lra.
Qed.

(** For a velocity from 0 up to, not including, 1: [gamma] and
    [timeDilation] are at least 1, [lengthContraction] lies in (0, 1] and is
    [sqrt (1 - v^2)]; at rest all three are exactly 1. *)
Theorem factor_ranges (v : R) :
  0 <= v < 1 ->
  1 <= gamma v
  /\ 1 <= timeDilation v
  /\ 0 < lengthContraction v <= 1
  /\ lengthContraction v = sqrt (1 - v * v)
  /\ (v = 0 -> gamma v = 1 /\ lengthContraction v = 1).
Proof.
  intros Hv. destruct (sqrt_one_minus_sq_range v Hv) as (Hpos & Hle).
  assert (Hg : 1 <= gamma v).
  { unfold gamma. apply Rmult_le_reg_r with (sqrt (1 - v * v)); [exact Hpos |].
    field_simplify; lra. }
  rewrite (lengthContraction_sqrt v Hv).
  split; [exact Hg | split; [exact Hg | split; [tauto | split]]].
  - reflexivity.
  - intros ->. unfold gamma. replace (1 - 0 * 0) with 1 by ring.
    rewrite sqrt_1. lra.
Qed.

Lemma factor_ranges_witness :
  1 <= gamma 0.6 /\ 0 < lengthContraction 0.6 <= 1.
Proof.
  assert (H : 0 <= 0.6 < 1) by lra.
  destruct (factor_ranges 0.6 H) as (G & _ & L & _).
  split; [exact G | exact L].
Defined.

(** The faster, the larger [gamma] and the shorter the ruler: on [0, 1)
    [gamma] and [timeDilation] are strictly increasing and
    [lengthContraction] is strictly decreasing. *)
Theorem factors_monotone (u v : R) :
  0 <= u -> u < v -> v < 1 ->
  gamma u < gamma v
  /\ timeDilation u < timeDilation v
  /\ lengthContraction v < lengthContraction u.
Proof.
  intros Hu Huv Hv.
  assert (Hu' : 0 <= u < 1) by lra. assert (Hv' : 0 <= v < 1) by lra.
  destruct (sqrt_one_minus_sq_range u Hu') as (Pu & _).
  destruct (sqrt_one_minus_sq_range v Hv') as (Pv & _).
  assert (Hs : sqrt (1 - v * v) < sqrt (1 - u * u))
    by (apply sqrt_lt_1_alt; nra).
  assert (Hg : gamma u < gamma v).
  { unfold gamma, Rdiv. rewrite !Rmult_1_l.
    apply Rinv_lt_contravar; [nra | exact Hs]. }
  rewrite (lengthContraction_sqrt u Hu'), (lengthContraction_sqrt v Hv').
  repeat split; assumption.
Qed.

Lemma factors_monotone_witness :
  gamma 0.5 < gamma 0.6 /\ lengthContraction 0.6 < lengthContraction 0.5.
Proof.
  assert (H0 : 0 <= 0.5) by lra.
  assert (H1 : 0.5 < 0.6) by lra.
  assert (H2 : 0.6 < 1) by lra.
  destruct (factors_monotone 0.5 0.6 H0 H1 H2) as (G & _ & L).
  split; [exact G | exact L].
Defined.

(** ** The two scales *)

Lemma pow4_lt (q p : R) : 0 <= q -> q < p -> q ^ 4 < p ^ 4.
Proof.
  intros Hq Hqp.
  assert (H2 : q * q < p * p) by nra.
  replace (q ^ 4) with ((q * q) * (q * q)) by ring.
  replace (p ^ 4) with ((p * p) * (p * p)) by ring.
  nra.
Qed.

Lemma pow4_le_1 (q : R) : 0 <= q <= 1 -> 0 <= q ^ 4 <= 1.
Proof.
  intros Hq. replace (q ^ 4) with ((q * q) * (q * q)) by ring.
  assert (0 <= q * q <= 1) by nra. nra.
Qed.

Lemma newVelocity_linear_range (c : R) :
  0 <= c <= 1 -> 0.1 <= newVelocity false c <= 0.9.
Proof. intros Hc. rewrite newVelocity_linear. lra. Qed.

Lemma newVelocity_logarithmic_range (c : R) :
  0 <= c <= 1 -> 0.9 <= newVelocity true c <= 0.9999.
Proof.
  intros Hc. rewrite newVelocity_logarithmic.
  assert (H : 0 <= (1 - c) ^ 4 <= 1) by (apply pow4_le_1; lra). lra.
Qed.

(** The linear scale sends 0, 0.5 and 1 to 0.1, 0.5 and 0.9, keeps every
    slider position of [0, 1] within [0.1, 0.9], and is strictly
    increasing. *)
Theorem linear_scale :
  newVelocity false 0 = 0.1
  /\ newVelocity false 0.5 = 0.5
  /\ newVelocity false 1 = 0.9
  /\ (forall c, 0 <= c <= 1 -> 0.1 <= newVelocity false c <= 0.9)
  /\ (forall a b, a < b -> newVelocity false a < newVelocity false b).
Proof.
  repeat split; intros; rewrite ?newVelocity_linear; lra.
Qed.

Lemma linear_scale_witness :
  0.1 <= newVelocity false 0.25 <= 0.9
  /\ newVelocity false 0.25 < newVelocity false 0.75.
Proof.
  destruct linear_scale as (_ & _ & _ & Hr & Hm).
  split; [apply Hr; lra | apply Hm; lra].
Defined.

(** The logarithmic scale keeps every slider position of [0, 1] within
    [0.9, 0.9999] and is strictly increasing there. *)
Theorem logarithmic_scale :
  (forall c, 0 <= c <= 1 -> 0.9 <= newVelocity true c <= 0.9999)
  /\ (forall a b, a < b -> b <= 1 ->
        newVelocity true a < newVelocity true b).
Proof.
  split.
  - exact newVelocity_logarithmic_range.
  - intros a b Hab Hb. rewrite !newVelocity_logarithmic.
    assert (H : (1 - b) ^ 4 < (1 - a) ^ 4) by (apply pow4_lt; lra). lra.
Qed.

Lemma logarithmic_scale_witness :
  0.9 <= newVelocity true 0.25 <= 0.9999
  /\ newVelocity true 0.25 < newVelocity true 0.75.
Proof.
  destruct logarithmic_scale as (Hr & Hm).
  split; [apply Hr; lra | apply Hm; lra].
Defined.

(** Finer control towards the top of the logarithmic scale: the same
    slider step [h] moves the velocity by less the further up it is taken. *)
Theorem logarithmic_steps_shrink (a b h : R) :
  a < b -> 0 < h -> b + h <= 1 ->
  newVelocity true (b + h) - newVelocity true b
  < newVelocity true (a + h) - newVelocity true a.
Proof.
  intros Hab Hh Hb. rewrite !newVelocity_logarithmic.
  set (u := 1 - b - h). set (w := 1 - a - h).
  assert (Hu : 0 <= u) by (unfold u; lra).
  assert (Huw : u < w) by (unfold u, w; lra).
  replace (1 - (b + h)) with u by (unfold u; ring).
  replace (1 - b) with (u + h) by (unfold u; ring).
  replace (1 - (a + h)) with w by (unfold w; ring).
  replace (1 - a) with (w + h) by (unfold w; ring).
  assert (H2 : u * u < w * w) by nra.
  assert (H3 : u * u * u < w * w * w).
  { apply Rle_lt_trans with (u * u * w).
    - apply Rmult_le_compat_l; [nra | lra].
    - apply Rmult_lt_compat_r; lra. }
  assert (E : forall x, (x + h) ^ 4 - x ^ 4
                        = h * (4 * (x * x * x) + 6 * h * (x * x)
                               + 4 * (h * h) * x + h * h * h))
    by (intros x; ring).
  assert (D : (u + h) ^ 4 - u ^ 4 < (w + h) ^ 4 - w ^ 4).
  { rewrite !E. apply Rmult_lt_compat_l; [exact Hh |].
    assert (P2 : 0 < h * (w * w - u * u))
      by (apply Rmult_lt_0_compat; lra).
    assert (P1 : 0 < h * h * (w - u))
      by (repeat apply Rmult_lt_0_compat; lra).
    lra. }
  lra.
Qed.

Lemma logarithmic_steps_shrink_witness :
  newVelocity true (0.8 + 0.1) - newVelocity true 0.8
  < newVelocity true (0.4 + 0.1) - newVelocity true 0.4.
Proof.
  apply logarithmic_steps_shrink; lra.
Defined.

(** ** What each event leaves alone *)

Lemma animationCleanup_rest (s : AppState) :
  viewMode (animationCleanup s) = viewMode s
  /\ nextHandle (animationCleanup s) = nextHandle s.
Proof.
  unfold animationCleanup.
  destruct (truthyHandle (animationRef s)); [| split; reflexivity].
  destruct (animationRef s); split; reflexivity.
Qed.

Lemma toggleAnimation_rest (s : AppState) :
  viewMode (toggleAnimation s) = viewMode s
  /\ animationRef (toggleAnimation s) = animationRef s
  /\ nextHandle (toggleAnimation s) = nextHandle s.
Proof.
  unfold toggleAnimation.
  destruct (isRunning s); [| repeat split; reflexivity].
  destruct (animationRef s) eqn:E; cbn; rewrite ?E; repeat split; reflexivity.
Qed.

Lemma resetSimulation_rest (s : AppState) :
  viewMode (resetSimulation s) = viewMode s
  /\ nextHandle (resetSimulation s) = nextHandle s.
Proof.
  unfold resetSimulation. cbn. destruct (animationRef s); split; reflexivity.
Qed.

(** The state after a reset. *)
Lemma step_reset (s : AppState) :
  step ResetClick s = resetSimulation s
  \/ step ResetClick s = animationCleanup (resetSimulation s).
Proof.
  rewrite step_ResetClick. destruct (isRunning s); [right | now left].
  apply animationEffect_paused.
  destruct (animationCleanup_fields (resetSimulation s))
    as (_ & _ & _ & -> & _).
  apply resetSimulation_fields.
Qed.

Lemma reset_mapping (s : AppState) :
  velocity (step ResetClick s) = velocity s
  /\ sliderValue (step ResetClick s) = sliderValue s
  /\ useLogarithmic (step ResetClick s) = useLogarithmic s
  /\ viewMode (step ResetClick s) = viewMode s.
Proof.
  destruct (resetSimulation_fields s) as (V & S & L & _).
  destruct (resetSimulation_rest s) as (M & _).
  destruct (step_reset s) as [-> | ->]; [auto |].
  destruct (animationCleanup_fields (resetSimulation s)) as (V' & S' & L' & _).
  destruct (animationCleanup_rest (resetSimulation s)) as (M' & _).
  now rewrite V', S', L', M', V, S, L, M.
Qed.

Lemma reset_clock (s : AppState) :
  isRunning (step ResetClick s) = false
  /\ elapsedTime (step ResetClick s) = 0
  /\ lastTimeRef (step ResetClick s) = 0.
Proof.
  destruct (resetSimulation_fields s) as (_ & _ & _ & R & E & T & _).
  destruct (step_reset s) as [-> | ->]; [auto |].
  destruct (animationCleanup_fields (resetSimulation s))
    as (_ & _ & _ & R' & E' & T' & _).
  now rewrite R', E', T', R, E, T.
Qed.

Lemma start_pause_viewMode (s : AppState) :
  viewMode (step StartPauseClick s) = viewMode s.
Proof.
  destruct (isRunning s) eqn:Hr.
  - rewrite (step_pause s Hr).
    destruct (animationCleanup_rest (toggleAnimation s)) as (-> & _).
    apply toggleAnimation_rest.
  - now rewrite (step_start s Hr).
Qed.

Lemma runPending_viewMode (t : R) (pending : list nat) (s : AppState) :
  viewMode (runPending t pending s) = viewMode s.
Proof.
  revert s. induction pending as [|h pending IH]; intros s; [reflexivity |].
  rewrite runPending_cons, IH. unfold animate.
  destruct (Req_dec_T (lastTimeRef s) 0); reflexivity.
Qed.

(** The clock's events never touch the velocity side of the state: Start,
    Pause, Reset and every frame leave the velocity, the slider position,
    the scale and the view as they were. *)
Theorem clock_events_preserve_mapping (s : AppState) (t : R) :
  mappingState (step StartPauseClick s) = mappingState s
  /\ mappingState (step ResetClick s) = mappingState s
  /\ mappingState (step (Frame t) s) = mappingState s.
Proof.
  unfold mappingState. repeat split.
  - destruct (start_pause_mapping s) as (-> & -> & ->).
    now rewrite start_pause_viewMode.
  - now destruct (reset_mapping s) as (-> & -> & -> & ->).
  - rewrite step_Frame. destruct (frame_frame t s) as (_ & -> & -> & ->).
    unfold frame.
    now rewrite (runPending_viewMode t (frameQueue s) (setFrameQueue [] s)).
Qed.

(** The scale toggle and the view buttons never touch the clock: running
    flag, stationary seconds, baseline, pending request and handle counter
    are unchanged; a view click changes the view and nothing else. *)
Theorem scale_and_view_preserve_clock (s : AppState) (m : ViewMode) :
  (clockState (step ScaleClick s) = clockState s
   /\ animationRef (step ScaleClick s) = animationRef s
   /\ frameQueue (step ScaleClick s) = frameQueue s
   /\ nextHandle (step ScaleClick s) = nextHandle s
   /\ viewMode (step ScaleClick s) = viewMode s)
  /\ step (ViewClick m) s = setViewMode m s.
Proof.
  rewrite step_ScaleClick, step_ViewClick. repeat split; reflexivity.
Qed.

(** ** Reset *)

(** Reset, from any state, running or not: the clock stops, the stationary
    seconds and the baseline are 0, the velocity side is untouched; in a
    state the component reaches nothing stays pending at the host, so the
    moving clock reads 0 as well. *)
Theorem reset_clears_clock (s : AppState) :
  clockState (step ResetClick s) = (false, 0, 0)
  /\ velocity (step ResetClick s) = velocity s
  /\ sliderValue (step ResetClick s) = sliderValue s
  /\ useLogarithmic (step ResetClick s) = useLogarithmic s
  /\ movingTime (step ResetClick s) = 0
  /\ (reachable s -> frameQueue (step ResetClick s) = []).
Proof.
  destruct (reset_clock s) as (R & E & T).
  destruct (reset_mapping s) as (V & S & L & _).
  unfold clockState, movingTime. rewrite R, E, T.
  repeat split; try assumption.
  - unfold Rdiv. apply Rmult_0_l.
  - intros Hreach. apply reachable_wellFormed in Hreach.
    pose proof (step_wellFormed ResetClick s Hreach) as (_ & Hq).
    rewrite R in Hq. tauto.
Qed.

Lemma reset_clears_clock_witness :
  frameQueue (step ResetClick (step StartPauseClick mount)) = [].
Proof.
  apply reset_clears_clock. apply reachable_step, reachable_mount.
Defined.

(** ** Invariants of the mounted component *)

(** After every commit the velocity is the image of the slider position
    under the scale in force: no event leaves a velocity computed from an
    older slider position or the other scale. *)
Theorem velocity_follows_controls (s : AppState) :
  reachable s ->
  velocity s = newVelocity (useLogarithmic s) (sliderValue s).
Proof. intros Hreach. apply reachable_wellFormed in Hreach. apply Hreach. Qed.

Lemma velocity_follows_controls_witness :
  let s := run [SliderChange 0.25; ScaleClick; StartPauseClick] mount in
  velocity s = newVelocity (useLogarithmic s) (sliderValue s).
Proof.
  cbn zeta. apply velocity_follows_controls, reachable_run, reachable_mount.
Defined.

Lemma animate_handlesIssued (t : R) (s : AppState) :
  handlesIssued s -> handlesIssued (animate t s).
Proof.
  intros (Hn & _). destruct (animate_reschedules t s) as (A & _).
  assert (N : nextHandle (animate t s) = S (nextHandle s)).
  { unfold animate. destruct (Req_dec_T (lastTimeRef s) 0); reflexivity. }
  split; [rewrite N; auto with arith |].
  intros h Hh. rewrite A in Hh. injection Hh as <-. rewrite N. auto with arith.
Qed.

Lemma runPending_handlesIssued (t : R) (pending : list nat) (s : AppState) :
  handlesIssued s -> handlesIssued (runPending t pending s).
Proof.
  revert s. induction pending as [|h pending IH]; intros s Hs; [exact Hs |].
  rewrite runPending_cons. now apply IH, animate_handlesIssued.
Qed.

Lemma step_handlesIssued (e : Event) (s : AppState) :
  handlesIssued s -> handlesIssued (step e s).
Proof.
  intros Hs. destruct e as [x | | | | m | t].
  - destruct (step_SliderChange_clock x s) as (_ & _ & _ & A & _ & N).
    unfold handlesIssued. now rewrite A, N.
  - rewrite step_ScaleClick. exact Hs.
  - destruct (isRunning s) eqn:Hr.
    + rewrite (step_pause s Hr). unfold handlesIssued.
      destruct (animationCleanup_fields (toggleAnimation s))
        as (_ & _ & _ & _ & _ & _ & -> & _).
      destruct (animationCleanup_rest (toggleAnimation s)) as (_ & ->).
      now destruct (toggleAnimation_rest s) as (_ & -> & ->).
    + rewrite (step_start s Hr). destruct Hs as (Hn & _).
      split; cbn; [auto with arith |].
      intros h Hh. injection Hh as <-. auto with arith.
  - unfold handlesIssued.
    destruct (resetSimulation_fields s) as (_ & _ & _ & _ & _ & _ & A & _).
    destruct (resetSimulation_rest s) as (_ & N).
    destruct (step_reset s) as [-> | ->].
    + now rewrite A, N.
    + destruct (animationCleanup_fields (resetSimulation s))
        as (_ & _ & _ & _ & _ & _ & -> & _).
      destruct (animationCleanup_rest (resetSimulation s)) as (_ & ->).
      now rewrite A, N.
  - rewrite step_ViewClick. exact Hs.
  - rewrite step_Frame. unfold frame.
    now apply runPending_handlesIssued.
Qed.

Lemma mount_handlesIssued : handlesIssued mount.
Proof. split; cbn; [auto with arith | intros h H; discriminate H]. Qed.

Lemma reachable_handlesIssued (s : AppState) :
  reachable s -> handlesIssued s.
Proof.
  intros [es ->]. generalize mount, mount_handlesIssued.
  induction es as [|e es IH]; intros s Hs; [exact Hs |].
  rewrite run_cons. now apply IH, step_handlesIssued.
Qed.

(** The component keeps at most one frame request alive.  While paused
    nothing is pending at the host and no baseline is recorded; while
    running exactly one request is pending, it is the one [animationRef]
    names, and its handle is a positive one the host has issued, so the
    cleanup's truthiness test on it passes. *)
Theorem one_request_while_running (s : AppState) :
  reachable s ->
  if isRunning s
  then exists h, animationRef s = Some h /\ frameQueue s = [h]
                 /\ (0 < h < nextHandle s)%nat
                 /\ truthyHandle (animationRef s) = true
  else frameQueue s = [] /\ lastTimeRef s = 0.
Proof.
  intros Hreach.
  pose proof (reachable_handlesIssued s Hreach) as (_ & Hh).
  apply reachable_wellFormed in Hreach. destruct Hreach as (_ & Hq).
  destruct (isRunning s); [| exact Hq].
  destruct Hq as (h & Href & Hqueue). exists h.
  pose proof (Hh h Href) as Hrange.
  repeat split; try assumption; try apply Hrange.
  rewrite Href. destruct h; [now destruct Hrange | reflexivity].
Qed.

Lemma one_request_while_running_witness :
  exists h, frameQueue (step StartPauseClick mount) = [h].
Proof.
  pose proof (one_request_while_running (step StartPauseClick mount)
                (reachable_step _ _ reachable_mount)) as H.
  rewrite (proj1 (start_clock mount eq_refl)) in H.
  destruct H as (h & _ & Hq & _). now exists h.
Defined.

(** ** Velocities the page can reach *)

Lemma step_sliderValue_valid (e : Event) (s : AppState) :
  validEvent e -> 0 <= sliderValue s <= 1 -> 0 <= sliderValue (step e s) <= 1.
Proof.
  intros He Hs. destruct e as [x | | | | m | t].
  - destruct (Req_dec_T (sliderValue s) x) as [E | E].
    + subst x. now rewrite step_SliderChange_same.
    + rewrite (step_SliderChange_other x s E). exact He.
  - rewrite step_ScaleClick. cbn. lra.
  - now destruct (start_pause_mapping s) as (_ & -> & _).
  - now destruct (reset_mapping s) as (_ & -> & _).
  - now rewrite step_ViewClick.
  - rewrite step_Frame. now destruct (frame_frame t s) as (_ & -> & _).
Qed.

Lemma run_sliderValue_valid (es : list Event) :
  Forall validEvent es ->
  forall s, 0 <= sliderValue s <= 1 -> 0 <= sliderValue (run es s) <= 1.
Proof.
  induction 1 as [|e es He _ IH]; intros s Hs; [exact Hs |].
  rewrite run_cons. now apply IH, step_sliderValue_valid.
Qed.

Lemma mount_sliderValue : 0 <= sliderValue mount <= 1.
Proof. cbn. lra. Qed.

Lemma valid_run_velocity (es : list Event) :
  Forall validEvent es ->
  if useLogarithmic (run es mount)
  then 0.9 <= velocity (run es mount) <= 0.9999
  else 0.1 <= velocity (run es mount) <= 0.9.
Proof.
  intros Hes.
  pose proof (run_sliderValue_valid es Hes mount mount_sliderValue) as Hs.
  pose proof (run_wellFormed es mount mount_wellFormed) as (Hv & _).
  rewrite Hv. destruct (useLogarithmic (run es mount)).
  - now apply newVelocity_logarithmic_range.
  - now apply newVelocity_linear_range.
Qed.

(** Whatever the user does with a slider that stays between 0 and 1, the
    velocity stays within the range of the scale in force, [0.1, 0.9] on
    the linear and [0.9, 0.9999] on the logarithmic scale; it is never 0,
    never reaches 1, the argument of the square root in [gamma] stays
    positive, and the percentage shown lies between 10 and 99.99. *)
Theorem velocity_in_range (es : list Event) :
  Forall validEvent es ->
  let s := run es mount in
  0 <= sliderValue s <= 1
  /\ (if useLogarithmic s
      then 0.9 <= velocity s <= 0.9999
      else 0.1 <= velocity s <= 0.9)
  /\ 0 < velocity s < 1
  /\ 0 < 1 - velocity s * velocity s
  /\ 10 <= velocityPercent s <= 99.99.
Proof.
  intros Hes s.
  pose proof (run_sliderValue_valid es Hes mount mount_sliderValue) as Hs.
  pose proof (valid_run_velocity es Hes) as Hv. fold s in Hs, Hv.
  split; [exact Hs | split; [exact Hv |]]. unfold velocityPercent.
  destruct (useLogarithmic s); (split; [| split]); nra.
Qed.

Lemma velocity_in_range_witness :
  0 < velocity (run [ScaleClick; SliderChange 1; StartPauseClick] mount) < 1.
Proof.
  apply (velocity_in_range [ScaleClick; SliderChange 1; StartPauseClick]).
  repeat constructor; cbn; lra.
Defined.

Lemma sqrt_between (lo hi x : R) :
  0 <= lo -> 0 <= hi -> lo * lo <= x <= hi * hi -> lo <= sqrt x <= hi.
Proof.
  intros Hlo Hhi Hx. split.
  - rewrite <- (sqrt_square lo Hlo). apply sqrt_le_1_alt, Hx.
  - rewrite <- (sqrt_square hi Hhi). apply sqrt_le_1_alt, Hx.
Qed.

Lemma gamma_between (lo hi v : R) :
  0 < lo -> lo <= hi -> lo * lo <= 1 - v * v <= hi * hi ->
  1 / hi <= gamma v <= 1 / lo
  /\ lo <= lengthContraction v <= hi.
Proof.
  intros Hlo Hhi Hx.
  destruct (sqrt_between lo hi (1 - v * v)) as (S1 & S2); try lra.
  assert (Hpos : 0 < sqrt (1 - v * v)) by lra.
  assert (L : lengthContraction v = sqrt (1 - v * v))
    by (unfold lengthContraction, gamma; field; lra).
  rewrite L. split; [| split; assumption].
  unfold gamma, Rdiv. rewrite !Rmult_1_l. split.
  - apply Rinv_le_contravar; lra.
  - apply Rinv_le_contravar; lra.
Qed.

(** The factors the page can show.  On the linear scale [gamma] stays
    between 1.005 and 2.3 and the moving ruler between 43.5 % and 99.5 % of
    the stationary one; on the logarithmic scale [gamma] stays between 2.29
    and 70.73 and the ruler between 1.41 % and 43.6 %.  The ruler never
    vanishes and never overflows. *)
Theorem displayed_factor_bounds (es : list Event) :
  Forall validEvent es ->
  let s := run es mount in
  if useLogarithmic s
  then 2.29 <= gamma (velocity s) <= 70.73
       /\ 1.41 <= rulerWidth s <= 43.6
       /\ 0.141 <= contractedTenMetres s <= 4.36
  else 1.005 <= gamma (velocity s) <= 2.3
       /\ 43.5 <= rulerWidth s <= 99.5
       /\ 4.35 <= contractedTenMetres s <= 9.95.
Proof.
  intros Hes s. pose proof (valid_run_velocity es Hes) as Hv. fold s in Hv.
  unfold rulerWidth, contractedTenMetres.
  destruct (useLogarithmic s).
  - assert (Hx : 0.01414 * 0.01414 <= 1 - velocity s * velocity s
                 <= 0.4359 * 0.4359) by nra.
    destruct (gamma_between 0.01414 0.4359 (velocity s)) as ((G1 & G2) & L);
      [lra | lra | exact Hx |].
    assert (2.29 <= 1 / 0.4359) by (apply Rmult_le_reg_r with 0.4359; [lra |];
      field_simplify; lra).
    assert (1 / 0.01414 <= 70.73) by (apply Rmult_le_reg_r with 0.01414;
      [lra |]; field_simplify; lra).
    repeat split; lra.
  - assert (Hx : 0.4358 * 0.4358 <= 1 - velocity s * velocity s
                 <= 0.995 * 0.995) by nra.
    destruct (gamma_between 0.4358 0.995 (velocity s)) as ((G1 & G2) & L);
      [lra | lra | exact Hx |].
    assert (1.005 <= 1 / 0.995) by (apply Rmult_le_reg_r with 0.995; [lra |];
      field_simplify; lra).
    assert (1 / 0.4358 <= 2.3) by (apply Rmult_le_reg_r with 0.4358;
      [lra |]; field_simplify; lra).
    repeat split; lra.
Qed.

Lemma displayed_factor_bounds_witness :
  1.005 <= gamma (velocity (run [SliderChange 0.25] mount)) <= 2.3.
Proof.
  assert (Hes : Forall validEvent [SliderChange 0.25])
    by (repeat constructor; cbn; lra).
  pose proof (displayed_factor_bounds [SliderChange 0.25] Hes) as H.
  cbn zeta in H.
  assert (Hne : sliderValue mount <> 0.25) by (cbn; lra).
  assert (L : useLogarithmic (run [SliderChange 0.25] mount) = false).
  { cbn [run fold_left]. now rewrite (step_SliderChange_other 0.25 mount Hne). }
  rewrite L in H. apply H.
Defined.

Lemma numGt_true (a b : R) : numGt a b = true <-> b < a.
Proof.
  unfold numGt. destruct (Rgt_dec a b) as [H | H]; unfold Rgt in H;
    split; intros; try easy.
Qed.

Lemma numLt_true (a b : R) : numLt a b = true <-> a < b.
Proof.
  unfold numLt. destruct (Rlt_dec a b) as [H | H]; split; intros; try easy.
Qed.

(** The two notes under the slider.  "(Effects becoming noticeable)" shows
    only on the linear scale, exactly while the slider is strictly between
    0.625 and 0.75; "(Extreme relativistic effects)" shows only on the
    logarithmic scale; the two never show together. *)
Theorem notes_by_scale (es : list Event) :
  Forall validEvent es ->
  let s := run es mount in
  (noticeableNote s = true <->
   useLogarithmic s = false /\ 0.625 < sliderValue s < 0.75)
  /\ (extremeNote s = true -> useLogarithmic s = true)
  /\ (noticeableNote s = true -> extremeNote s = false).
Proof.
  intros Hes s. pose proof (valid_run_velocity es Hes) as Hv. fold s in Hv.
  pose proof (run_wellFormed es mount mount_wellFormed) as (Hc & _).
  fold s in Hc. unfold noticeableNote, extremeNote.
  assert (Hn : numGt (velocity s) 0.6 && numLt (velocity s) 0.7
               && negb (useLogarithmic s) = true
               <-> useLogarithmic s = false
                   /\ 0.6 < velocity s < 0.7).
  { rewrite !andb_true_iff, negb_true_iff, numGt_true, numLt_true. tauto. }
  split; [| split].
  - rewrite Hn. split.
    + intros (Hl & Hr). split; [exact Hl |].
      rewrite Hc, Hl, newVelocity_linear in Hr. lra.
    + intros (Hl & Hr). split; [exact Hl |].
      rewrite Hc, Hl, newVelocity_linear. lra.
  - rewrite numGt_true. intros Hx.
    destruct (useLogarithmic s); [reflexivity | lra].
  - rewrite Hn. intros (_ & Hr).
    destruct (numGt (velocity s) 0.99) eqn:E; [| reflexivity].
    apply numGt_true in E. lra.
Qed.

Lemma notes_by_scale_witness :
  noticeableNote (run [SliderChange 0.7] mount) = true.
Proof.
  assert (Hes : Forall validEvent [SliderChange 0.7])
    by (repeat constructor; cbn; lra).
  apply (proj1 (notes_by_scale [SliderChange 0.7] Hes)).
  assert (Hne : sliderValue mount <> 0.7) by (cbn; lra).
  cbn [run fold_left]. rewrite (step_SliderChange_other 0.7 mount Hne).
  cbn. split; [reflexivity | lra].
Defined.

(** ** The moving clock *)

(** The moving observer's clock never runs ahead: for a velocity strictly
    between 0 and 1 and positive stationary seconds it reads more than 0 and
    strictly less than the stationary clock, namely the stationary seconds
    times [sqrt (1 - v^2)]. *)
Theorem moving_clock_behind (s : AppState) :
  0 < velocity s < 1 -> 0 < elapsedTime s ->
  movingTime s = elapsedTime s * sqrt (1 - velocity s * velocity s)
  /\ 0 < movingTime s < elapsedTime s.
Proof.
  intros Hv He.
  assert (Hpos : 0 < sqrt (1 - velocity s * velocity s))
    by (apply sqrt_lt_R0; nra).
  assert (Hlt : sqrt (1 - velocity s * velocity s) < 1).
  { rewrite <- sqrt_1 at 2. apply sqrt_lt_1_alt. nra. }
  assert (E : movingTime s
              = elapsedTime s * sqrt (1 - velocity s * velocity s)).
  { unfold movingTime, timeDilation, gamma. field. lra. }
  rewrite E. split; [reflexivity | nra].
Qed.

Lemma moving_clock_behind_witness :
  let s := mkApp 0.6 0.625 TimeView true false 10 (Some 3%nat) 11000
                 [3%nat] 4 in
  0 < movingTime s < elapsedTime s.
Proof.
  apply moving_clock_behind; cbn; lra.
Defined.

(** ** Pausing and resuming *)

Lemma frames_while_paused (ts : list R) (s : AppState) :
  wellFormed s -> isRunning s = false -> run (map Frame ts) s = s.
Proof.
  intros Hwf Hr. induction ts as [|t ts IH]; [reflexivity |].
  cbn [map]. now rewrite run_cons, (frame_paused t s Hwf Hr).
Qed.

(** Pause and Reset really stop the clock: in a paused state of the
    component the host holds no callback, so frames, however many and
    whatever their timestamps, leave the whole state as it is. *)
Theorem frames_inert_while_paused (s : AppState) (ts : list R) :
  reachable s -> isRunning s = false ->
  run (map Frame ts) s = s.
Proof.
  intros Hreach Hr. apply frames_while_paused; [| exact Hr].
  now apply reachable_wellFormed.
Qed.

Lemma frames_inert_while_paused_witness :
  let paused := run [StartPauseClick; Frame 1000; StartPauseClick] mount in
  run (map Frame [2000; 3000; 4000]) paused = paused.
Proof.
  cbn zeta. apply frames_inert_while_paused.
  - apply reachable_run, reachable_mount.
  - change (run [StartPauseClick; Frame 1000; StartPauseClick] mount)
      with (step StartPauseClick (run [StartPauseClick; Frame 1000] mount)).
    apply pause_clock.
    change (run [StartPauseClick; Frame 1000] mount)
      with (step (Frame 1000) (step StartPauseClick mount)).
    apply frame_running.
    + apply step_wellFormed, mount_wellFormed.
    + now apply start_clock.
Defined.

(** Time spent paused is not counted.  Pause a running clock, let any
    number of frames go by, resume: the first frame after resuming, whatever
    its timestamp, only records the new baseline, and the stationary
    seconds are what they were at the pause. *)
Theorem pause_gap_not_counted (s : AppState) (gap : list R) (t : R) :
  reachable s -> isRunning s = true ->
  let s' := run (StartPauseClick :: map Frame gap
                 ++ [StartPauseClick; Frame t]) s in
  elapsedTime s' = elapsedTime s
  /\ isRunning s' = true
  /\ lastTimeRef s' = t.
Proof.
  intros Hreach Hr s'. apply reachable_wellFormed in Hreach.
  destruct (pause_clock s Hr) as (R1 & E1 & L1).
  assert (W1 : wellFormed (step StartPauseClick s))
    by now apply step_wellFormed.
  destruct (start_clock _ R1) as (R2 & E2 & L2).
  assert (W2 : wellFormed (step StartPauseClick (step StartPauseClick s)))
    by now apply step_wellFormed.
  destruct (frame_running t _ W2 R2) as (R3 & L3 & E3).
  rewrite L1 in L2. rewrite (animate_first_tick t _ L2), E2, E1 in E3.
  subst s'. rewrite run_cons, run_app, (frames_while_paused gap _ W1 R1).
  rewrite !run_cons. cbn [run fold_left]. auto.
Qed.

Lemma pause_gap_not_counted_witness :
  let s := run [StartPauseClick; Frame 1000; Frame 2500] mount in
  elapsedTime (run (StartPauseClick :: map Frame [3000; 60000]
                    ++ [StartPauseClick; Frame 90000]) s)
  = elapsedTime s.
Proof.
  cbn zeta. apply pause_gap_not_counted.
  - apply reachable_run, reachable_mount.
  - change (run [StartPauseClick; Frame 1000; Frame 2500] mount)
      with (step (Frame 2500) (step (Frame 1000) (step StartPauseClick mount))).
    assert (R0 : isRunning (step StartPauseClick mount) = true)
      by now apply start_clock.
    assert (W0 : wellFormed (step StartPauseClick mount))
      by apply step_wellFormed, mount_wellFormed.
    destruct (frame_running 1000 _ W0 R0) as (R1 & _).
    apply frame_running; [now apply step_wellFormed | exact R1].
Defined.

Lemma last_snoc (l : list R) (t d : R) : last (l ++ [t]) d = t.
Proof. apply last_last. Qed.

(** ** Toggling the scale back and forth *)

(** Two clicks on the scale toggle restore the scale but not the slider:
    the slider is left at 0.5 and the velocity at the original scale's
    image of 0.5, whatever they were; the clock is untouched. *)
Theorem toggle_scale_twice (s : AppState) :
  let s2 := step ScaleClick (step ScaleClick s) in
  useLogarithmic s2 = useLogarithmic s
  /\ sliderValue s2 = 0.5
  /\ velocity s2 = newVelocity (useLogarithmic s) 0.5
  /\ clockState s2 = clockState s.
Proof.
  cbn zeta. rewrite !step_ScaleClick. cbn.
  rewrite Bool.negb_involutive. repeat split; reflexivity.
Qed.

(** Coming from the logarithmic scale, the velocity right after the toggle
    is 0.5, for every prior slider position: a drop from a velocity that
    was at least 0.9. *)
Theorem logarithmic_to_linear_drop (s : AppState) :
  useLogarithmic s = true ->
  velocity (step ScaleClick s) = 0.5
  /\ (reachable s -> 0 <= sliderValue s <= 1 ->
      0.9 <= velocity s /\ velocity (step ScaleClick s) < velocity s).
Proof.
  intros Hlog. rewrite step_ScaleClick.
  change (velocity (velocityEffect (toggleScale s)))
    with (newVelocity (negb (useLogarithmic s)) 0.5).
  rewrite Hlog. cbn [negb]. rewrite newVelocity_linear.
  split; [lra |].
  intros Hreach Hs. apply reachable_wellFormed in Hreach.
  destruct Hreach as (Hv & _). rewrite Hv, Hlog.
  pose proof (newVelocity_logarithmic_range _ Hs). lra.
Qed.

Lemma logarithmic_to_linear_drop_witness :
  velocity (step ScaleClick (step ScaleClick mount)) = 0.5.
Proof.
  apply logarithmic_to_linear_drop. now rewrite step_ScaleClick.
Defined.

(** ** What keeps a paused clock still *)

(** Only the cancellation keeps a paused clock still; [animate] itself
    does not look at [isRunning].  If one callback slipped through after a
    pause, it would record a baseline and request the next frame, and that
    frame, delivered by the host to the paused component, would add the
    time since the stray callback to the stationary seconds. *)
Theorem orphaned_callback_restarts_ticking (s : AppState) (t1 t2 : R) :
  reachable s -> isRunning s = true -> t1 <> 0 ->
  let paused := step StartPauseClick s in
  let stray := animate t1 paused in
  isRunning stray = false
  /\ elapsedTime stray = elapsedTime s
  /\ frameQueue stray = [nextHandle paused]
  /\ isRunning (step (Frame t2) stray) = false
  /\ elapsedTime (step (Frame t2) stray) = elapsedTime s + (t2 - t1) / 1000.
Proof.
  intros Hreach Hr Ht1 paused stray. apply reachable_wellFormed in Hreach.
  destruct (pause_clock s Hr) as (R1 & E1 & L1). fold paused in R1, E1, L1.
  pose proof (step_wellFormed StartPauseClick s Hreach) as (_ & Hq).
  fold paused in Hq. rewrite R1 in Hq. destruct Hq as (Hqueue & _).
  destruct (animate_reschedules t1 paused) as (_ & Q). fold stray in Q.
  rewrite Hqueue in Q. cbn [app] in Q.
  assert (Rs : isRunning stray = false)
    by (subst stray; now rewrite animate_isRunning).
  assert (Es : elapsedTime stray = elapsedTime s)
    by (subst stray; now rewrite (animate_first_tick t1 paused L1)).
  assert (Ls : lastTimeRef stray = t1) by reflexivity.
  rewrite step_Frame, (frame_one_pending t2 stray _ Q).
  rewrite animate_isRunning.
  change (isRunning (setFrameQueue [] stray)) with (isRunning stray).
  repeat split; try assumption.
  assert (Hbase : lastTimeRef (setFrameQueue [] stray) <> 0) by exact Ht1.
  rewrite (animate_next_tick t2 _ Hbase).
  change (elapsedTime (setFrameQueue [] stray)) with (elapsedTime stray).
  change (lastTimeRef (setFrameQueue [] stray)) with t1.
  now rewrite Es.
Qed.

Lemma orphaned_callback_restarts_ticking_witness :
  let s := step StartPauseClick mount in
  elapsedTime (step (Frame 8000) (animate 5000 (step StartPauseClick s)))
  = elapsedTime s + (8000 - 5000) / 1000.
Proof.
  cbn zeta.
  apply (orphaned_callback_restarts_ticking (step StartPauseClick mount)).
  - apply reachable_step, reachable_mount.
  - now apply start_clock.
  - lra.
Defined.

(** ** Sessions with frames in clock order *)

Lemma frameTimestamps_app (es1 es2 : list Event) :
  frameTimestamps (es1 ++ es2) = frameTimestamps es1 ++ frameTimestamps es2.
Proof.
  induction es1 as [|e es1 IH]; [reflexivity |].
  destruct e; cbn; now rewrite IH.
Qed.

Lemma sorted_snoc (ts : list R) (t : R) :
  Sorted Rle (ts ++ [t]) -> Sorted Rle ts /\ Forall (fun x => x <= t) ts.
Proof.
  induction ts as [|a ts IH]; intros H; [split; constructor |].
  cbn in H. apply Sorted_StronglySorted in H; [| exact Rle_transitive].
  apply StronglySorted_inv in H. destruct H as (Hs & Ha).
  apply StronglySorted_Sorted in Hs. destruct (IH Hs) as (IH1 & IH2).
  split.
  - constructor; [exact IH1 |]. destruct ts as [|b ts]; constructor.
    apply Forall_inv in Ha. exact Ha.
  - constructor; [| exact IH2].
    apply Forall_app in Ha. destruct Ha as (_ & Ha). now apply Forall_inv in Ha.
Qed.

Lemma last_le_of_forall (ts : list R) (t : R) :
  ts <> [] -> Forall (fun x => x <= t) ts -> last ts 0 <= t.
Proof.
  intros Hne Hall. rewrite Forall_forall in Hall. apply Hall.
  destruct (exists_last Hne) as (l & a & ->). rewrite last_snoc.
  apply in_or_app. right. now left.
Qed.

Lemma frameTimestamps_frames (ts : list R) :
  frameTimestamps (map Frame ts) = ts.
Proof. induction ts as [|t ts IH]; cbn; [reflexivity | now rewrite IH]. Qed.

(** A recorded baseline is the timestamp of the latest frame of the run. *)
Lemma baseline_is_latest_frame (es : list Event) :
  lastTimeRef (run es mount) = 0
  \/ (frameTimestamps es <> []
      /\ lastTimeRef (run es mount) = last (frameTimestamps es) 0).
Proof.
  induction es as [|e es IH] using rev_ind; [now left |].
  rewrite frameTimestamps_app, run_app. cbn [run fold_left].
  set (s := run es mount) in *.
  assert (Hwf : wellFormed s) by apply run_wellFormed, mount_wellFormed.
  destruct e as [x | | | | m | t]; cbn [frameTimestamps];
    rewrite ?app_nil_r.
  - now destruct (step_SliderChange_clock x s) as (_ & _ & -> & _).
  - rewrite step_ScaleClick. exact IH.
  - destruct (isRunning s) eqn:Hr.
    + left. now apply pause_clock.
    + destruct (start_clock s Hr) as (_ & _ & ->). exact IH.
  - left. apply reset_clock.
  - rewrite step_ViewClick. exact IH.
  - destruct (isRunning s) eqn:Hr.
    + right. destruct (frame_running t s Hwf Hr) as (_ & -> & _).
      rewrite last_snoc. split; [| reflexivity].
      now destruct (frameTimestamps es).
    + left. rewrite (frame_paused t s Hwf Hr).
      destruct Hwf as (_ & Hq). rewrite Hr in Hq. tauto.
Qed.

Lemma sorted_app_r (l1 l2 : list R) :
  Sorted Rle (l1 ++ l2) ->
  Sorted Rle l2 /\ forall x, In x l1 -> Forall (fun y => x <= y) l2.
Proof.
  induction l1 as [|a l1 IH]; intros H; [split; [exact H | easy] |].
  cbn in H. apply Sorted_StronglySorted in H; [| exact Rle_transitive].
  apply StronglySorted_inv in H. destruct H as (Hs & Ha).
  apply StronglySorted_Sorted in Hs. destruct (IH Hs) as (IH1 & IH2).
  split; [exact IH1 |]. intros x [<- | Hx]; [| now apply IH2].
  apply Forall_app in Ha. tauto.
Qed.

(** In a session whose frames come in clock order, the frames to come are
    in order and none is stamped before the recorded baseline. *)
Lemma clock_order_chronological (es : list Event) (ts : list R) :
  Sorted Rle (frameTimestamps es ++ ts) ->
  chronological (lastTimeRef (run es mount)) ts.
Proof.
  intros H. destruct (sorted_app_r _ _ H) as (Hs & Hall).
  split; [exact Hs |].
  destruct (baseline_is_latest_frame es) as [Z | (Hne & ->)]; [now left |].
  right. apply Hall.
  destruct (exists_last Hne) as (l & a & ->). rewrite last_snoc.
  apply in_or_app. right. now left.
Qed.

Lemma frames_prefix_elapsed_le (ts1 ts2 : list R) :
  forall s,
    wellFormed s -> isRunning s = true ->
    chronological (lastTimeRef s) (ts1 ++ ts2) ->
    isRunning (run (map Frame (ts1 ++ ts2)) s) = true
    /\ elapsedTime (run (map Frame ts1) s)
       <= elapsedTime (run (map Frame (ts1 ++ ts2)) s).
Proof.
  induction ts1 as [|t ts1 IH]; intros s Hwf Hr Hc.
  - cbn [app]. change (run (map Frame []) s) with s.
    now apply frames_elapsed_le.
  - apply chronological_cons in Hc. destruct Hc as (_ & Hc).
    cbn [app map]. rewrite !run_cons.
    destruct (frame_running t s Hwf Hr) as (R1 & L1 & _).
    rewrite <- L1 in Hc.
    exact (IH _ (step_wellFormed _ _ Hwf) R1 Hc).
Qed.

(** C7.  While the clock runs, the stationary seconds never decrease across
    any sequence of ticks: in a session from mount whose frames carry
    timestamps in clock order, as the host's frame clock stamps them, after
    every prefix of a run of ticks they are at most what they are after the
    whole run, and the clock is still running.  No delta is clamped and no
    frame skipped: every tick becomes the new baseline and, with a
    baseline recorded, adds exactly the time since that baseline, whatever
    its size; with none recorded it adds nothing. *)
Theorem elapsed_monotone_while_running
  (es : list Event) (ts1 ts2 : list R) :
  let s := run es mount in
  isRunning s = true ->
  Sorted Rle (frameTimestamps es ++ ts1 ++ ts2) ->
  isRunning (run (map Frame (ts1 ++ ts2)) s) = true
  /\ elapsedTime (run (map Frame ts1) s)
     <= elapsedTime (run (map Frame (ts1 ++ ts2)) s)
  /\ (forall t,
        lastTimeRef (step (Frame t) s) = t
        /\ (lastTimeRef s <> 0 ->
            elapsedTime (step (Frame t) s)
            = elapsedTime s + (t - lastTimeRef s) / 1000)
        /\ (lastTimeRef s = 0 ->
            elapsedTime (step (Frame t) s) = elapsedTime s)).
Proof.
  intros s Hr Hsorted.
  assert (Hwf : wellFormed s) by apply run_wellFormed, mount_wellFormed.
  pose proof (clock_order_chronological es (ts1 ++ ts2) Hsorted) as Hc.
  fold s in Hc.
  destruct (frames_prefix_elapsed_le ts1 ts2 s Hwf Hr Hc) as (R1 & E1).
  split; [exact R1 | split; [exact E1 |]].
  intros t. destruct (frame_running t s Hwf Hr) as (_ & L & E).
  split; [exact L | split]; intros Hb; rewrite E.
  - now apply animate_next_tick.
  - now apply animate_first_tick.
Qed.

Lemma elapsed_monotone_while_running_witness :
  let s := run [StartPauseClick; Frame 1000] mount in
  elapsedTime (run (map Frame [1016; 1033]) s)
  <= elapsedTime (run (map Frame ([1016; 1033] ++ [5000; 5016])) s).
Proof.
  cbn zeta.
  apply (elapsed_monotone_while_running [StartPauseClick; Frame 1000]
           [1016; 1033] [5000; 5016]).
  - change (run [StartPauseClick; Frame 1000] mount)
      with (step (Frame 1000) (step StartPauseClick mount)).
    apply frame_running.
    + apply step_wellFormed, mount_wellFormed.
    + now apply start_clock.
  - cbn. repeat constructor; lra.
Defined.

(** However clicks, slider moves and frames interleave, as long as the
    frames carry timestamps in clock order the stationary seconds are never
    negative. *)
Theorem elapsed_never_negative (es : list Event) :
  Sorted Rle (frameTimestamps es) ->
  0 <= elapsedTime (run es mount).
Proof.
  induction es as [|e es IH] using rev_ind; intros Hsorted; [cbn; lra |].
  rewrite frameTimestamps_app in Hsorted. rewrite run_app. cbn [run fold_left].
  assert (Hold : Sorted Rle (frameTimestamps es)).
  { destruct e; cbn in Hsorted; rewrite ?app_nil_r in Hsorted;
      try exact Hsorted. now apply sorted_snoc in Hsorted. }
  specialize (IH Hold).
  pose proof (baseline_is_latest_frame es) as Hbase.
  set (s := run es mount) in *.
  assert (Hwf : wellFormed s) by apply run_wellFormed, mount_wellFormed.
  destruct e as [x | | | | m | t].
  - now destruct (step_SliderChange_clock x s) as (_ & -> & _).
  - rewrite step_ScaleClick. exact IH.
  - destruct (isRunning s) eqn:Hr.
    + now destruct (pause_clock s Hr) as (_ & -> & _).
    + now destruct (start_clock s Hr) as (_ & -> & _).
  - destruct (reset_clock s) as (_ & -> & _). lra.
  - rewrite step_ViewClick. exact IH.
  - cbn in Hsorted. apply sorted_snoc in Hsorted.
    destruct Hsorted as (_ & Hall).
    destruct (isRunning s) eqn:Hr.
    + destruct (frame_running t s Hwf Hr) as (_ & _ & ->).
      apply Rle_trans with (elapsedTime s); [exact IH |].
      apply animate_elapsed_le.
      destruct Hbase as [Z | (Hne & ->)]; [now left | right].
      now apply last_le_of_forall.
    + now rewrite (frame_paused t s Hwf Hr).
Qed.

Lemma elapsed_never_negative_witness :
  0 <= elapsedTime
         (run [StartPauseClick; Frame 1000; SliderChange 0.8; Frame 1500;
               StartPauseClick; Frame 9000; StartPauseClick; Frame 9500;
               ResetClick; Frame 10000] mount).
Proof.
  apply elapsed_never_negative. cbn. repeat constructor; lra.
Defined.

(** * The earlier variant *)

Lemma pow4_le_self (q : R) : 0 <= q <= 1 -> q ^ 4 <= q.
Proof.
  intros Hq. replace (q ^ 4) with ((q * q) * (q * q)) by ring.
  assert (0 <= q * q <= q) by nra. nra.
Qed.

Lemma first_variant_uncapped (x : R) :
  FirstVariant.newVelocity true x
  = Rmin (1 - 0.9 * (1 - x) ^ 4) 0.99.
Proof. unfold FirstVariant.newVelocity. cbv zeta. f_equal. lra. Qed.

(** The cap of the earlier variant.  On its logarithmic scale the velocity
    never exceeds 0.99, for any slider value at all, so [gamma] stays
    finite; without the cap the top of the slider would give exactly 1.
    The price is a dead zone: from 0.68 to 1 every slider position gives the
    same velocity 0.99. *)
Theorem first_variant_velocity_cap :
  (forall x, FirstVariant.newVelocity true x <= 0.99)
  /\ (forall x, 0 <= x <= 1 -> 0.1 <= FirstVariant.newVelocity true x)
  /\ 0.1 + (1 - 0.1) * (1 - (1 - 1) ^ 4) = 1
  /\ (forall x, 0.68 <= x <= 1 -> FirstVariant.newVelocity true x = 0.99)
  /\ (forall s x, FirstVariant.useLogarithmic s = true -> 0 <= x <= 1 ->
        0 < 1 - FirstVariant.velocity (FirstVariant.handleVelocityChange x s)
                * FirstVariant.velocity (FirstVariant.handleVelocityChange x s)).
Proof.
  assert (Hcap : forall x, FirstVariant.newVelocity true x <= 0.99).
  { intros x. rewrite first_variant_uncapped. apply Rmin_r. }
  assert (Hlow : forall x, 0 <= x <= 1 ->
                           0.1 <= FirstVariant.newVelocity true x).
  { intros x Hx. rewrite first_variant_uncapped.
    assert (H : 0 <= (1 - x) ^ 4 <= 1) by (apply pow4_le_1; lra).
    apply Rmin_glb; lra. }
  split; [exact Hcap | split; [exact Hlow | split; [| split]]].
  - simpl pow. lra.
  - intros x Hx. rewrite first_variant_uncapped.
    apply Rmin_right.
    assert (H : (1 - x) ^ 4 <= 0.32 ^ 4).
    { destruct (Req_dec_T (1 - x) 0.32) as [-> | Hne]; [lra |].
      apply Rlt_le, pow4_lt; lra. }
    simpl pow in H. simpl pow. lra.
  - intros s x Hlog Hx. unfold FirstVariant.handleVelocityChange. cbn.
    rewrite Hlog. pose proof (Hcap x). pose proof (Hlow x Hx). nra.
Qed.

Lemma first_variant_velocity_cap_witness :
  FirstVariant.newVelocity true 0.7 = 0.99
  /\ 0.1 <= FirstVariant.newVelocity true 0.2.
Proof.
  destruct first_variant_velocity_cap as (_ & Hlow & _ & Hdead & _).
  split; [apply Hdead; lra | apply Hlow; lra].
Defined.

Lemma fourth_root_pow4 (x : R) : 0 <= x -> sqrt (sqrt (x ^ 4)) = x.
Proof.
  intros Hx. replace (x ^ 4) with ((x * x) * (x * x)) by ring.
  rewrite sqrt_square by nra. now apply sqrt_square.
Qed.

(** The slider of the earlier variant is rendered from the velocity.  On
    the linear scale it is rendered where the user put it.  On the
    logarithmic scale it never is: after a change to any position [x] of
    [0, 1] the rendered position, the fourth root of [velocity / 0.9], is
    strictly to the right of [x]. *)
Theorem first_variant_slider_position (s : FirstVariant.State) (x : R) :
  (FirstVariant.useLogarithmic s = false ->
   FirstVariant.sliderPosition (FirstVariant.handleVelocityChange x s) = x)
  /\ (FirstVariant.useLogarithmic s = true -> 0 <= x <= 1 ->
      FirstVariant.sliderPosition (FirstVariant.handleVelocityChange x s)
      = sqrt (sqrt (FirstVariant.newVelocity true x / 0.9))
      /\ x < FirstVariant.sliderPosition
               (FirstVariant.handleVelocityChange x s)).
Proof.
  unfold FirstVariant.sliderPosition, FirstVariant.handleVelocityChange.
  cbn. split.
  - intros ->. reflexivity.
  - intros -> Hx.
    assert (E : 1 - (1 - FirstVariant.newVelocity true x - 0.1) / 0.9
                = FirstVariant.newVelocity true x / 0.9) by lra.
    rewrite E. split; [reflexivity |].
    rewrite <- (fourth_root_pow4 x) at 1 by lra.
    assert (Hx4 : 0 <= x ^ 4 <= 1) by (apply pow4_le_1; lra).
    assert (Hlt : x ^ 4 < FirstVariant.newVelocity true x / 0.9).
    { apply Rmult_lt_reg_r with 0.9; [lra |].
      replace (FirstVariant.newVelocity true x / 0.9 * 0.9)
        with (FirstVariant.newVelocity true x) by lra.
      rewrite first_variant_uncapped. apply Rmin_glb_lt; [| lra].
      assert (H1 : x ^ 4 <= x) by (apply pow4_le_self; lra).
      assert (H2 : (1 - x) ^ 4 <= 1 - x) by (apply pow4_le_self; lra).
      lra. }
    apply sqrt_lt_1_alt. split; [apply sqrt_pos |].
    apply sqrt_lt_1_alt. lra.
Qed.

Lemma first_variant_slider_position_witness :
  let s := FirstVariant.toggleScale FirstVariant.initialState in
  0.5 < FirstVariant.sliderPosition (FirstVariant.handleVelocityChange 0.5 s).
Proof.
  cbn zeta.
  apply (proj2 (first_variant_slider_position
                  (FirstVariant.toggleScale FirstVariant.initialState) 0.5));
    [reflexivity | lra].
Defined.

Lemma first_variant_start (s : FirstVariant.State) :
  FirstVariant.isRunning s = false ->
  FirstVariant.isRunning (FirstVariant.clickStartPause s) = true
  /\ FirstVariant.elapsedTime (FirstVariant.clickStartPause s) = 0
  /\ FirstVariant.lastTimeRef (FirstVariant.clickStartPause s)
     = FirstVariant.lastTimeRef s.
Proof.
  intros Hr.
  unfold FirstVariant.clickStartPause, FirstVariant.commit,
    FirstVariant.toggleAnimation. rewrite Hr. cbn. auto.
Qed.

Lemma first_variant_pause (s : FirstVariant.State) :
  FirstVariant.isRunning s = true ->
  FirstVariant.isRunning (FirstVariant.clickStartPause s) = false
  /\ FirstVariant.elapsedTime (FirstVariant.clickStartPause s)
     = FirstVariant.elapsedTime s
  /\ FirstVariant.lastTimeRef (FirstVariant.clickStartPause s) = 0.
Proof.
  intros Hr.
  unfold FirstVariant.clickStartPause, FirstVariant.commit,
    FirstVariant.toggleAnimation. rewrite Hr.
  destruct (FirstVariant.animationRef s) as [[|h]|] eqn:E; cbn;
    unfold FirstVariant.animationCleanup; cbn; rewrite ?E; cbn; auto.
Qed.

Lemma first_variant_animate_elapsed (t : R) (s : FirstVariant.State) :
  FirstVariant.elapsedTime (FirstVariant.animate t s)
  = FirstVariant.elapsedTime s
    + (t - (if Req_dec_T (FirstVariant.lastTimeRef s) 0
            then t else FirstVariant.lastTimeRef s)) / 1000.
Proof.
  unfold FirstVariant.animate.
  destruct (Req_dec_T (FirstVariant.lastTimeRef s) 0); reflexivity.
Qed.

(** Start restarts the clock of the earlier variant.  Start from a paused
    state clears the stationary seconds, so a pause followed by a resume
    loses the time shown; Pause itself keeps it.  After Start with no
    baseline recorded, two ticks at [t0] (not 0) and [t1] leave exactly
    [(t1 - t0) / 1000] seconds, whatever the clock showed before. *)
Theorem first_variant_start_restarts (s : FirstVariant.State) (t0 t1 : R) :
  (FirstVariant.isRunning s = true ->
   FirstVariant.elapsedTime (FirstVariant.clickStartPause s)
   = FirstVariant.elapsedTime s
   /\ FirstVariant.elapsedTime
        (FirstVariant.clickStartPause (FirstVariant.clickStartPause s)) = 0)
  /\ (FirstVariant.isRunning s = false ->
      FirstVariant.elapsedTime (FirstVariant.clickStartPause s) = 0
      /\ (FirstVariant.lastTimeRef s = 0 -> t0 <> 0 ->
          FirstVariant.elapsedTime
            (FirstVariant.animate t1
               (FirstVariant.animate t0 (FirstVariant.clickStartPause s)))
          = (t1 - t0) / 1000)).
Proof.
  split.
  - intros Hr. destruct (first_variant_pause s Hr) as (R1 & E1 & _).
    split; [exact E1 |]. now apply first_variant_start.
  - intros Hr. destruct (first_variant_start s Hr) as (_ & E1 & L1).
    split; [exact E1 |]. intros Hl Ht0. rewrite Hl in L1.
    rewrite first_variant_animate_elapsed.
    change (FirstVariant.lastTimeRef
              (FirstVariant.animate t0 (FirstVariant.clickStartPause s)))
      with t0.
    rewrite (Req_dec_T_other _ _ _ _ _ Ht0), first_variant_animate_elapsed.
    rewrite L1, Req_dec_T_same, E1. lra.
Qed.

Lemma first_variant_start_restarts_witness :
  let s := FirstVariant.setElapsedTime 42 FirstVariant.initialState in
  FirstVariant.elapsedTime
    (FirstVariant.animate 3000
       (FirstVariant.animate 1000 (FirstVariant.clickStartPause s)))
  = 2.
Proof.
  cbn zeta.
  destruct (first_variant_start_restarts
              (FirstVariant.setElapsedTime 42 FirstVariant.initialState)
              1000 3000) as (_ & H).
  destruct (H eq_refl) as (_ & H2).
  rewrite H2; [lra | reflexivity | lra].
Defined.
